(** * Tool-set reconciliation and target extraction of the extendable
      Kubernetes MCP server

    A shallow embedding of [pkg/mcp/extendable_server.go] (the applicability
    filter and the reconciliation pass [reloadKubernetesClusterProvider]) and
    of [pkg/http/authorization.go] (target extraction for token review),
    followed by the properties of the design document that they decide. *)

From Stdlib Require Import Floats.SpecFloat.
From stdpp Require Import gmap strings list fin_maps.

#[local] Set Warnings "-clear-no-such-hyp".

Open Scope string_scope.
Open Scope list_scope.

(** ** Go values *)

(** A Go [error], by its message; [nil] is the [None] of [option error]. *)
Definition error : Type := string.

(** A Go slice: [None] is the [nil] slice, [Some l] an allocated slice with
    the elements [l].  The two differ only under a comparison with [nil]. *)
Definition slice (A : Type) : Type := option (list A).

Definition elems {A : Type} (s : slice A) : list A :=
  match s with
  | None => []
  | Some l => l
  end.

(** [make([]T, 0)] *)
Definition make0 {A : Type} : slice A := Some [].

(** [append(s, x)] *)
Definition append {A : Type} (s : slice A) (x : A) : slice A :=
  Some (elems s ++ [x]).

(** [s != nil] *)
Definition notNil {A : Type} (s : slice A) : bool :=
  match s with
  | None => false
  | Some _ => true
  end.

(** [slices.Contains(s, x)] *)
Definition slices_Contains (s : slice string) (x : string) : bool :=
  bool_decide (x ∈ elems s).

(** [ptr.Deref(p, def)] *)
Definition ptr_Deref {A : Type} (p : option A) (def : A) : A :=
  match p with
  | Some v => v
  | None => def
  end.

(** ** The upstream tool types ([k8sapi]) *)

Record ToolAnnotations : Type := {
  Title : string;
  ReadOnlyHint : option bool;
  DestructiveHint : option bool;
  IdempotentHint : option bool;
  OpenWorldHint : option bool
}.

(** The input schema is carried as its JSON text ([None] for a nil schema);
    the code of this package never looks inside it. *)
Record Tool : Type := {
  Name : string;
  Description : string;
  Annotations : ToolAnnotations;
  InputSchema : option string
}.

(** A handler is a closure; it is carried by an identifier. *)
Record ServerTool : Type := {
  tool : Tool;
  Handler : nat;
  ClusterAware : option bool;
  TargetListProvider : option bool
}.

(** The target resolver ([internalk8s.Provider]), by what its query methods
    return. *)
Record Provider : Type := {
  GetTargets : error + list string;
  GetDefaultTarget : string;
  GetTargetParameterName : string
}.

Record Toolset : Type := {
  GetName : string;
  GetTools : Provider -> list ServerTool
}.

(** ** Configuration *)

Record StaticConfig : Type := {
  ReadOnly : bool;
  DisableDestructive : bool;
  EnabledTools : slice string;
  DisabledTools : slice string;
  Toolsets_names : list string;
  ListOutput : string
}.

Record Configuration : Type := {
  staticConfig : StaticConfig;
  toolsets : list Toolset
}.

(** [Configuration.Toolsets]: the catalog.  The method fills [toolsets] once
    from the names of the static configuration through the upstream registry
    and returns the same list on every later call; the record holds the
    filled list. *)
Definition Toolsets (c : Configuration) : list Toolset := toolsets c.

(** [Configuration.isToolApplicable] *)
Definition isToolApplicable (c : Configuration) (t : ServerTool) : bool :=
  let cfg := staticConfig c in
  if ReadOnly cfg && negb (ptr_Deref (ReadOnlyHint (Annotations (tool t))) false)
  then false
  else if DisableDestructive cfg
          && ptr_Deref (DestructiveHint (Annotations (tool t))) false
  then false
  else if notNil (EnabledTools cfg)
          && negb (slices_Contains (EnabledTools cfg) (Name (tool t)))
  then false
  else if notNil (DisabledTools cfg)
          && slices_Contains (DisabledTools cfg) (Name (tool t))
  then false
  else true.

(** The configuration [c] with its enabled-tool names replaced. *)
Definition withEnabledTools (c : Configuration) (e : slice string)
  : Configuration :=
  {| staticConfig :=
       {| ReadOnly := ReadOnly (staticConfig c);
          DisableDestructive := DisableDestructive (staticConfig c);
          EnabledTools := e;
          DisabledTools := DisabledTools (staticConfig c);
          Toolsets_names := Toolsets_names (staticConfig c);
          ListOutput := ListOutput (staticConfig c) |};
     toolsets := toolsets c |}.

(** ** The protocol server adapter (go-sdk [mcp.Server]) *)

(** What [ServerToolToGoSdkTool] hands to the protocol server: the native
    tool and its handler. *)
Record GoSdkTool : Type := {
  SdkName : string;
  SdkDescription : string;
  SdkInputSchema : option string;
  SdkHandler : nat
}.

(** The tools the protocol server advertises, keyed by name. *)
Abbreviation Registry := (gmap string GoSdkTool).

(** [mcp.Server.AddTool]: adds the tool, or replaces the one of that name. *)
Definition mcp_AddTool (g : GoSdkTool) (m : Registry) : Registry :=
  <[SdkName g := g]> m.

(** [mcp.Server.RemoveTools]: removes the named tools; a name that is not
    there is skipped. *)
Definition mcp_RemoveTools (names : list string) (m : Registry) : Registry :=
  foldl (fun acc n => delete n acc) m names.

(** ** Calls on collaborators *)

(** The calls a function of this package makes on its collaborators that
    leave a mark outside the package: on the target resolver, on the protocol
    server, on the token reviewer and on the logger ([klog]). *)
Inductive Effect : Type :=
| CallClose (prov : Provider)
| CallRemoveTools (names : list string)
| CallAddTool (g : GoSdkTool)
| CallWatchTargets (prov : Provider)
| CallVerifyToken (cluster token audience : string)
| Klog (level : nat) (msg : string).

(** The functions of the package and of upstream that the reconciliation
    pass calls and that are not part of this development.  The conversion
    also receives the server, which it only stores in the handler it builds;
    it is a function of the tool. *)
Record Collaborators : Type := {
  NewProvider : StaticConfig -> error + Provider;
  WithTargetParameter :
    string -> string -> list string -> ServerTool -> ServerTool;
  ShouldIncludeTargetListTool : string -> list string -> ServerTool -> bool;
  ServerToolToGoSdkTool : ServerTool -> error + GoSdkTool
}.

(** Modelled from the spec: [CompositeFilter], whose source is not part of
    this development.  "Composing filters is done by logical AND across all
    active filter predicates - any predicate returning false excludes the
    tool". *)
Definition CompositeFilter (f g : ServerTool -> bool) (t : ServerTool) : bool :=
  f t && g t.

(** ** The server *)

Record Server : Type := {
  configuration : Configuration;
  server : Registry;
  enabledTools : slice string;
  p : option Provider
}.

(** [GetEnabledTools] *)
Definition GetEnabledTools (s : Server) : slice string := enabledTools s.

(** The inner loop of the Computing phase: [for _, tool := range
    toolset.GetTools(p)], over the two slices it appends to. *)
Fixpoint rangeTools (mutator : ServerTool -> ServerTool)
  (filter : ServerTool -> bool) (tools : list ServerTool)
  (acc : list ServerTool * slice string) : list ServerTool * slice string :=
  match tools with
  | [] => acc
  | t :: rest =>
      let t' := mutator t in
      if negb (filter t') then rangeTools mutator filter rest acc
      else rangeTools mutator filter rest
             ((acc.1 ++ [t']), append acc.2 (Name (tool t')))
  end.

(** The outer loop: [for _, toolset := range s.configuration.Toolsets()]. *)
Fixpoint rangeToolsets (mutator : ServerTool -> ServerTool)
  (filter : ServerTool -> bool) (prov : Provider) (tss : list Toolset)
  (acc : list ServerTool * slice string) : list ServerTool * slice string :=
  match tss with
  | [] => acc
  | ts :: rest =>
      rangeToolsets mutator filter prov rest
        (rangeTools mutator filter (GetTools ts prov) acc)
  end.

(** The Computing phase: [applicableTools] and the new [s.enabledTools]. *)
Definition computeApplicable (env : Collaborators) (c : Configuration)
  (prov : Provider) (targets : list string)
  : list ServerTool * slice string :=
  let filter :=
    CompositeFilter (isToolApplicable c)
      (ShouldIncludeTargetListTool env (GetTargetParameterName prov) targets) in
  let mutator :=
    WithTargetParameter env (GetDefaultTarget prov)
      (GetTargetParameterName prov) targets in
  rangeToolsets mutator filter prov (Toolsets c) ([], make0).

(** The Diffing loop: the previous names that are not enabled any more. *)
Fixpoint toolsToRemove (enabled : slice string) (previousTools : list string)
  : list string :=
  match previousTools with
  | [] => []
  | oldTool :: rest =>
      if negb (slices_Contains enabled oldTool)
      then oldTool :: toolsToRemove enabled rest
      else toolsToRemove enabled rest
  end.

(** The installing loop: converts and adds each applicable tool, and returns
    at the first conversion that fails. *)
Fixpoint addTools (env : Collaborators) (applicableTools : list ServerTool)
  (srv : Registry) : Registry * list Effect * option error :=
  match applicableTools with
  | [] => (srv, [], None)
  | t :: rest =>
      match ServerToolToGoSdkTool env t with
      | inl err =>
          (srv, [],
           Some ("failed to convert tool " +:+ Name (tool t) +:+ ": " +:+ err))
      | inr goSdkTool =>
          let r := addTools env rest (mcp_AddTool goSdkTool srv) in
          (r.1.1, CallAddTool goSdkTool :: r.1.2, r.2)
      end
  end.

(** [Server.reloadKubernetesClusterProvider]: one reconciliation pass.  It
    returns the server after the pass, the calls it made, in order, and the
    error it returned ([None] for [nil]). *)
Definition reloadKubernetesClusterProvider (env : Collaborators) (s : Server)
  : Server * list Effect * option error :=
  match NewProvider env (staticConfig (configuration s)) with
  | inl err => (s, [], Some err)
  | inr np =>
      let closing :=
        match p s with
        | Some old => [CallClose old]
        | None => []
        end in
      match GetTargets np with
      | inl err =>
          ({| configuration := configuration s; server := server s;
              enabledTools := enabledTools s; p := Some np |},
           closing, Some err)
      | inr targets =>
          let previousTools := enabledTools s in
          let computed := computeApplicable env (configuration s) np targets in
          let removals := toolsToRemove computed.2 (elems previousTools) in
          let added :=
            addTools env computed.1 (mcp_RemoveTools removals (server s)) in
          let s' :=
            {| configuration := configuration s; server := added.1.1;
               enabledTools := computed.2; p := Some np |} in
          match added.2 with
          | Some err =>
              (s', (closing ++ CallRemoveTools removals :: added.1.2),
               Some err)
          | None =>
              (s',
               (closing ++ CallRemoveTools removals :: added.1.2
                  ++ [CallWatchTargets np]),
               None)
          end
      end
  end.

(** ** Target extraction for token review ([pkg/http/authorization.go]) *)

Module http.

(** A value decoded by [encoding/json] into an [interface{}]. *)
#[local] Unset Elimination Schemes.
Inductive Any : Type :=
| AnyNil
| AnyBool (b : bool)
| AnyFloat64 (f : spec_float)
| AnyString (s : string)
| AnyArray (l : list Any)
| AnyObject (m : list (string * Any)).
#[local] Set Elimination Schemes.

(** The anonymous struct the request body is decoded into; a nil
    [Arguments] map is the empty map. *)
Record mcpRequestParams : Type := { Arguments : gmap string Any }.
Record mcpRequest : Type := { Params : mcpRequestParams }.

(** [json.Unmarshal] into an [mcpRequest]: the decoder of the Go library,
    taken as it is. *)
Definition Unmarshaler : Type := string -> error + mcpRequest.

(** An [http.Request], by its body: [None] for a nil body, else what
    [io.ReadAll] returns on it. *)
Record Request : Type := { Body : option (error + string) }.

Record KubernetesApiTokenVerifier : Type := {
  KubernetesApiVerifyToken : string -> string -> string -> option error;
  GetTargetParameterName : string
}.

Record JWTClaims : Type := {
  Token : string;
  Scope : string
}.

(** [extractTargetFromRequest]: the request with its body restored, the
    target and the error. *)
Definition extractTargetFromRequest (json_Unmarshal : Unmarshaler)
  (r : Request) (targetName : string) : Request * string * option error :=
  match Body r with
  | None => (r, "", None)
  | Some (inl err) => (r, "", Some err)
  | Some (inr body) =>
      let r' := {| Body := Some (inr body) |} in
      match json_Unmarshal body with
      | inl _ => (r', "", None)
      | inr mcpReq =>
          match Arguments (Params mcpReq) !! targetName with
          | Some (AnyString cluster) => (r', cluster, None)
          | _ => (r', "", None)
          end
      end
  end.

(** [JWTClaims.ValidateWithKubernetesApi] *)
Definition ValidateWithKubernetesApi (c : JWTClaims) (audience cluster : string)
  (verifier : option KubernetesApiTokenVerifier) : list Effect * option error :=
  match verifier with
  | Some v =>
      match KubernetesApiVerifyToken v cluster (Token c) audience with
      | Some err =>
          ([CallVerifyToken cluster (Token c) audience],
           Some ("kubernetes API token validation error: " +:+ err))
      | None => ([CallVerifyToken cluster (Token c) audience], None)
      end
  | None => ([], None)
  end.

(** [validateTokenWithKubernetes], on a verifier that is not nil (the
    function calls a method of it first). *)
Definition validateTokenWithKubernetes (json_Unmarshal : Unmarshaler)
  (r : Request) (verifier : KubernetesApiTokenVerifier) (claims : JWTClaims)
  (audience : string) : Request * list Effect * option error :=
  let targetParameterName := GetTargetParameterName verifier in
  let extracted := extractTargetFromRequest json_Unmarshal r targetParameterName in
  let logged :=
    match extracted.2 with
    | Some clusterErr =>
        [Klog 2 ("Failed to extract cluster from request, using default: "
                 +:+ clusterErr)]
    | None => []
    end in
  let reviewed :=
    ValidateWithKubernetesApi claims audience extracted.1.2 (Some verifier) in
  (extracted.1.1, (logged ++ reviewed.1), reviewed.2).

(** The body decodes to no string under [targetName]: it is not valid JSON
    for an [mcpRequest], or the parameter is absent, or it is not a string. *)
Definition noStringTarget (json_Unmarshal : Unmarshaler) (body targetName : string)
  : Prop :=
  match json_Unmarshal body with
  | inl _ => True
  | inr mcpReq =>
      match Arguments (Params mcpReq) !! targetName with
      | Some (AnyString _) => False
      | _ => True
      end
  end.

End http.

(** ** Scenarios *)

Module Scenario.

Definition annotated (ro destructive : option bool) : ToolAnnotations :=
  {| Title := ""; ReadOnlyHint := ro; DestructiveHint := destructive;
     IdempotentHint := None; OpenWorldHint := None |}.

Definition mkTool (name : string) (ro destructive : option bool) (h : nat)
  : ServerTool :=
  {| tool := {| Name := name; Description := ""; InputSchema := None;
                Annotations := annotated ro destructive |};
     Handler := h; ClusterAware := None; TargetListProvider := None |}.

Definition pods_list : ServerTool := mkTool "pods_list" (Some true) None 1.
Definition pods_delete : ServerTool := mkTool "pods_delete" None (Some true) 2.
Definition pods_list_again : ServerTool := mkTool "pods_list" (Some true) None 3.
Definition bad : ServerTool := mkTool "bad" (Some true) None 4.

Definition sdkOf (t : ServerTool) : GoSdkTool :=
  {| SdkName := Name (tool t); SdkDescription := Description (tool t);
     SdkInputSchema := InputSchema (tool t); SdkHandler := Handler t |}.

Definition oneCluster : Provider :=
  {| GetTargets := inr ["prod"]; GetDefaultTarget := "prod";
     GetTargetParameterName := "context" |}.

Definition unreachable : Provider :=
  {| GetTargets := inl "connection refused"; GetDefaultTarget := "";
     GetTargetParameterName := "context" |}.

(** Collaborators whose resolver answers [prov], that leave the tools as they
    are, and whose conversion fails on the tool named [bad] only. *)
Definition collaborators (prov : Provider) : Collaborators :=
  {| NewProvider := fun _ => inr prov;
     WithTargetParameter := fun _ _ _ t => t;
     ShouldIncludeTargetListTool := fun _ _ _ => true;
     ServerToolToGoSdkTool := fun t =>
       if bool_decide (Name (tool t) = "bad")
       then inl "malformed schema"
       else inr (sdkOf t) |}.

Definition noProvider : Collaborators :=
  {| NewProvider := fun _ => inl "no kubeconfig";
     WithTargetParameter := fun _ _ _ t => t;
     ShouldIncludeTargetListTool := fun _ _ _ => true;
     ServerToolToGoSdkTool := fun t => inr (sdkOf t) |}.

Definition policy (ro : bool) (enabled : slice string) : StaticConfig :=
  {| ReadOnly := ro; DisableDestructive := false; EnabledTools := enabled;
     DisabledTools := None; Toolsets_names := ["core"; "extra"];
     ListOutput := "table" |}.

Definition catalog (core extra : list ServerTool) : list Toolset :=
  [ {| GetName := "core"; GetTools := fun _ => core |};
    {| GetName := "extra"; GetTools := fun _ => extra |} ].

Definition config (ro : bool) (enabled : slice string)
  (core extra : list ServerTool) : Configuration :=
  {| staticConfig := policy ro enabled; toolsets := catalog core extra |}.

(** A server that advertises [pods_delete] from an earlier pass. *)
Definition running (c : Configuration) : Server :=
  {| configuration := c;
     server := {[ "pods_delete" := sdkOf pods_delete ]};
     enabledTools := Some ["pods_delete"];
     p := Some oneCluster |}.

(** A server before its first pass. *)
Definition fresh (c : Configuration) : Server :=
  {| configuration := c; server := ∅; enabledTools := None; p := None |}.

Definition notJson : http.Unmarshaler :=
  fun body =>
    if bool_decide (body = "{}")
    then inr {| http.Params := {| http.Arguments := ∅ |} |}
    else inl "invalid character".

Definition reviewer : http.KubernetesApiTokenVerifier :=
  {| http.KubernetesApiVerifyToken := fun _ _ _ => None;
     http.GetTargetParameterName := "context" |}.

Definition bearer : http.JWTClaims :=
  {| http.Token := "t0"; http.Scope := "" |}.

End Scenario.

(** ** Reading a pass *)

(** The tools of the catalog, toolset after toolset. *)
Definition catalogTools (c : Configuration) (prov : Provider) : list ServerTool :=
  concat ((fun ts => GetTools ts prov) <$> Toolsets c).

(** The tools of [tools] that pass [filt] once mutated, in order. *)
Definition kept (mutator : ServerTool -> ServerTool) (filt : ServerTool -> bool)
  (tools : list ServerTool) : list ServerTool :=
  filter (fun t => filt t = true) (mutator <$> tools).

(** The conversions of the tools that come before the first one whose
    conversion fails (of all of them when none fails). *)
Fixpoint convertedPrefix (env : Collaborators) (tools : list ServerTool)
  : list GoSdkTool :=
  match tools with
  | [] => []
  | t :: rest =>
      match ServerToolToGoSdkTool env t with
      | inl _ => []
      | inr g => g :: convertedPrefix env rest
      end
  end.

(** The name lists of the remove operations of a trace, in order. *)
Definition removeCalls (tr : list Effect) : list (list string) :=
  omap (fun e => match e with CallRemoveTools ns => Some ns | _ => None end) tr.

(** The tools of the add operations of a trace, in order. *)
Definition addCalls (tr : list Effect) : list GoSdkTool :=
  omap (fun e => match e with CallAddTool g => Some g | _ => None end) tr.

(** The providers on which a trace arms the watch, in order. *)
Definition watchCalls (tr : list Effect) : list Provider :=
  omap (fun e => match e with CallWatchTargets q => Some q | _ => None end) tr.

(** The messages a trace hands to the logger, in order. *)
Definition logCalls (tr : list Effect) : list string :=
  omap (fun e => match e with Klog _ msg => Some msg | _ => None end) tr.

(** The registry after adding [gs] in order. *)
Definition installAll (gs : list GoSdkTool) (m : Registry) : Registry :=
  foldl (fun acc g => mcp_AddTool g acc) m gs.

(** The last tool of [gs] that is named [n]. *)
Definition lastNamed (n : string) (gs : list GoSdkTool) : option GoSdkTool :=
  last (filter (fun g => SdkName g = n) gs).

(** ** The rest of the server ([pkg/mcp/extendable_server.go]) *)

(** The providers a trace closes, in order. *)
Definition closeCalls (tr : list Effect) : list Provider :=
  omap (fun e => match e with CallClose q => Some q | _ => None end) tr.

(** The advertised names of a registry. *)
Definition advertised (m : Registry) : gset string := dom m.

(** The names a server has stored, as a set. *)
Definition storedNames (s : Server) : gset string :=
  list_to_set (elems (enabledTools s)).

(** What a token review of the upstream provider answers. *)
Record UserInfo : Type := {
  Username : string;
  UID : string;
  Groups : list string
}.

(** [Provider.VerifyToken], which the provider record does not carry. *)
Definition TokenReviewer : Type :=
  Provider -> string -> string -> string -> error + (UserInfo * list string).

(** [Server.KubernetesApiVerifyToken] *)
Definition Server_KubernetesApiVerifyToken (VerifyToken : TokenReviewer)
  (s : Server) (cluster token audience : string)
  : error + (UserInfo * list string) :=
  match p s with
  | None => inl "kubernetes cluster provider is not initialized"
  | Some prov => VerifyToken prov cluster token audience
  end.

(** [Server.GetTargetParameterName] *)
Definition Server_GetTargetParameterName (s : Server) : string :=
  match p s with
  | None => ""
  | Some prov => GetTargetParameterName prov
  end.

(** [Server.Close] *)
Definition Server_Close (s : Server) : list Effect :=
  match p s with
  | None => []
  | Some prov => [CallClose prov]
  end.

(** The server as the [KubernetesApiTokenVerifier] of the HTTP layer, whose
    callers keep the error of a review only. *)
Definition asVerifier (VerifyToken : TokenReviewer) (s : Server)
  : http.KubernetesApiTokenVerifier :=
  {| http.KubernetesApiVerifyToken := fun cluster token audience =>
       match Server_KubernetesApiVerifyToken VerifyToken s cluster token audience with
       | inl err => Some err
       | inr _ => None
       end;
     http.GetTargetParameterName := Server_GetTargetParameterName s |}.

(** [mcp.TextContent] and [mcp.CallToolResult] *)
Record CallToolResult : Type := {
  IsError : bool;
  Content : list string
}.

(** [NewTextResult] *)
Definition NewTextResult (content : string) (err : option error)
  : CallToolResult :=
  match err with
  | Some e => {| IsError := true; Content := [e] |}
  | None => {| IsError := false; Content := [content] |}
  end.

(** *** Resources *)

(** A request context, by an identifier. *)
Definition Context : Type := nat.

Record Resource : Type := {
  URI : string;
  ResourceName : string;
  MIMEType : string
}.

Record ResourceContents : Type := {
  ContentsURI : string;
  ContentsMIMEType : string;
  Text : string
}.

Record ReadResourceResult : Type := { Contents : list ResourceContents }.

(** A resource as the protocol server holds it: the descriptor and the
    handler of read requests. *)
Record InstalledResource : Type := {
  resource : Resource;
  resourceHandler : Context -> error + ReadResourceResult
}.

(** The resources of the protocol server, keyed by URI:
    [mcp.Server.AddResource] adds the resource or replaces the one of that
    URI. *)
Abbreviation ResourceRegistry := (gmap string InstalledResource).

(** One call of the register function by a toolset. *)
Record Registration : Type := {
  reg_uri : string;
  reg_name : string;
  reg_mimeType : string;
  reg_handler : Context -> error + string
}.

(** A toolset that implements [ResourceProvider], by what its
    [RegisterResources] does with a register function that returns nil on
    every call, as the one of this package does: the calls it makes, in
    order, and the error it returns. *)
Record ResourceProvider : Type := {
  RegisterResources : list Registration * option error
}.

(** The type assertion [toolset.(localapi.ResourceProvider)]. *)
Definition Capability : Type := Toolset -> option ResourceProvider.

(** The register function that [registerResources] hands to a toolset; it
    returns nil. *)
Definition registerFunc (reg : Registration) (m : ResourceRegistry)
  : ResourceRegistry :=
  <[reg_uri reg :=
      {| resource := {| URI := reg_uri reg; ResourceName := reg_name reg;
                        MIMEType := reg_mimeType reg |};
         resourceHandler := fun ctx =>
           match reg_handler reg ctx with
           | inl err => inl err
           | inr content =>
               inr {| Contents :=
                        [ {| ContentsURI := reg_uri reg;
                             ContentsMIMEType := reg_mimeType reg;
                             Text := content |} ] |}
           end |}]> m.

(** The registry after the calls [regs] of a toolset. *)
Definition registerAll (regs : list Registration) (m : ResourceRegistry)
  : ResourceRegistry :=
  foldl (fun acc reg => registerFunc reg acc) m regs.

(** [RegisterToolsetResources]: the loop over the toolsets; it returns at the
    first toolset whose registration fails. *)
Fixpoint RegisterToolsetResources (asProvider : Capability)
  (mcpServer : ResourceRegistry) (tss : list Toolset)
  : ResourceRegistry * option error :=
  match tss with
  | [] => (mcpServer, None)
  | ts :: rest =>
      match asProvider ts with
      | Some resourceProvider =>
          let registered :=
            registerAll (RegisterResources resourceProvider).1 mcpServer in
          match (RegisterResources resourceProvider).2 with
          | Some err => (registered, Some err)
          | None => RegisterToolsetResources asProvider registered rest
          end
      | None => RegisterToolsetResources asProvider mcpServer rest
      end
  end.

(** [Server.registerResources]: the same loop, over the toolsets of the
    configuration and the resources of the server. *)
Definition registerResources (asProvider : Capability) (c : Configuration)
  (mcpServer : ResourceRegistry) : ResourceRegistry * option error :=
  RegisterToolsetResources asProvider mcpServer (Toolsets c).

(** What [NewExtendableServer] builds: the server, the resources and the
    receiving middlewares of its protocol server. *)
Record Built : Type := {
  built : Server;
  resources : ResourceRegistry;
  middlewares : list string
}.

(** [NewExtendableServer]: the server, the calls made and the error.  The
    configuration is the wrapped one, with its toolsets resolved; the scoped
    authorization middleware hangs on [requireOAuth && false]. *)
Definition NewExtendableServer (env : Collaborators) (asProvider : Capability)
  (requireOAuth : bool) (cfg : Configuration)
  : option Built * list Effect * option error :=
  let s :=
    {| configuration := cfg; server := ∅; enabledTools := None; p := None |} in
  let mws :=
    ["authHeaderPropagationMiddleware"; "toolCallLoggingMiddleware"]
    ++ (if requireOAuth && false
        then ["toolScopedAuthorizationMiddleware"] else []) in
  match registerResources asProvider cfg ∅ with
  | (_, Some err) => (None, [], Some ("failed to register resources: " +:+ err))
  | (res, None) =>
      let reloaded := reloadKubernetesClusterProvider env s in
      match reloaded.2 with
      | Some err => (None, reloaded.1.2, Some err)
      | None =>
          let watch :=
            match p reloaded.1.1 with
            | Some prov => [CallWatchTargets prov]
            | None => []
            end in
          (Some {| built := reloaded.1.1; resources := res;
                   middlewares := mws |},
           reloaded.1.2 ++ watch, None)
      end
  end.

(** The registrations of the toolsets [tss], in order. *)
Definition registrationsOf (asProvider : Capability) (tss : list Toolset)
  : list Registration :=
  concat ((fun ts =>
             match asProvider ts with
             | Some rp => (RegisterResources rp).1
             | None => []
             end) <$> tss).

(** The last registration of [regs] under the URI [u]. *)
Definition lastRegistered (u : string) (regs : list Registration)
  : option Registration :=
  last (filter (fun reg => reg_uri reg = u) regs).

(** ** The authorization middleware ([pkg/http/authorization.go]) *)

Module authorization.

(** The fields of the static configuration that the middleware reads. *)
Record StaticAuth : Type := {
  RequireOAuth : bool;
  ValidateToken : bool;
  OAuthAudience : string
}.

(** An incoming request: the fields the middleware reads, the
    [Authorization] header (empty when absent) and the body. *)
Record HttpRequest : Type := {
  Method : string;
  Path : string;
  EscapedPath : string;
  RemoteAddr : string;
  Authorization : string;
  inner : http.Request
}.

(** What [http.Error] answers after [write401]. *)
Record Response : Type := {
  Status : nat;
  WWWAuthenticate : string;
  Message : string
}.

(** The libraries and the constants of the package that the middleware
    uses and that are not part of this development: the JOSE and OIDC
    libraries, the token exchange, formatting, the endpoint constants. *)
Record Libraries : Type := {
  ParsedJWT : Type;
  OidcProvider : Type;
  jwt_ParseSigned : string -> error + ParsedJWT;
  UnsafeClaimsWithoutVerification : ParsedJWT -> string * option error;
  jwt_Validate : http.JWTClaims -> list string -> option error;
  oidc_Verify : OidcProvider -> string -> string -> option error;
  sts_IsEnabled : StaticAuth -> option OidcProvider -> bool;
  sts_ExternalAccountTokenExchange :
    StaticAuth -> option OidcProvider -> option nat -> string -> error + string;
  strings_Fields : string -> list string;
  Sprint_v : slice string -> string;
  Sprintf_q : string -> string;
  healthEndpoint : string;
  WellKnownEndpoints : list string;
  json_Unmarshal : http.Unmarshaler
}.

(** [strings.HasPrefix] and [strings.TrimPrefix] *)
Definition strings_HasPrefix (s pre : string) : bool := String.prefix pre s.

Definition strings_TrimPrefix (s pre : string) : string :=
  if strings_HasPrefix s pre
  then String.substring (String.length pre)
         (String.length s - String.length pre) s
  else s.

(** The double quote. *)
Definition dquote : string := String (Ascii.ascii_of_nat 34) EmptyString.

(** [JWTClaims.GetScopes] *)
Definition GetScopes (lib : Libraries) (c : http.JWTClaims) : slice string :=
  if bool_decide (http.Scope c = "") then None
  else Some (strings_Fields lib (http.Scope c)).

(** [ParseJWTClaims]: the claims ([None] for nil) and the error. *)
Definition ParseJWTClaims (lib : Libraries) (token : string)
  : option http.JWTClaims * option error :=
  match jwt_ParseSigned lib token with
  | inl err => (None, Some ("failed to parse JWT token: " +:+ err))
  | inr tkn =>
      let decoded := UnsafeClaimsWithoutVerification lib tkn in
      (Some {| http.Token := token; http.Scope := decoded.1 |}, decoded.2)
  end.

(** [JWTClaims.ValidateOffline] *)
Definition ValidateOffline (lib : Libraries) (c : http.JWTClaims)
  (audience : string) : option error :=
  let expected := if bool_decide (audience = "") then [] else [audience] in
  match jwt_Validate lib c expected with
  | Some err => Some ("JWT token validation error: " +:+ err)
  | None => None
  end.

(** [JWTClaims.ValidateWithProvider] *)
Definition ValidateWithProvider (lib : Libraries) (c : http.JWTClaims)
  (audience : string) (provider : option (OidcProvider lib)) : option error :=
  match provider with
  | Some pr =>
      match oidc_Verify lib pr audience (http.Token c) with
      | Some err => Some ("OIDC token validation error: " +:+ err)
      | None => None
      end
  | None => None
  end.

Definition setAuthorization (r : HttpRequest) (v : string) : HttpRequest :=
  {| Method := Method r; Path := Path r; EscapedPath := EscapedPath r;
     RemoteAddr := RemoteAddr r; Authorization := v; inner := inner r |}.

Definition setInner (r : HttpRequest) (b : http.Request) : HttpRequest :=
  {| Method := Method r; Path := Path r; EscapedPath := EscapedPath r;
     RemoteAddr := RemoteAddr r; Authorization := Authorization r;
     inner := b |}.

(** [exchangeTokenIfNeeded]: the request with its header, the exchanged
    token and the error. *)
Definition exchangeTokenIfNeeded (lib : Libraries) (claims : http.JWTClaims)
  (cfg : StaticAuth) (provider : option (OidcProvider lib))
  (httpClient : option nat) (r : HttpRequest)
  : HttpRequest * string * option error :=
  if negb (sts_IsEnabled lib cfg provider) then (r, "", None)
  else
    match sts_ExternalAccountTokenExchange lib cfg provider httpClient
            (http.Token claims) with
    | inl err => (r, "", Some err)
    | inr accessToken =>
        (setAuthorization r ("Bearer " +:+ accessToken), accessToken, None)
    end.

(** What [io.ReadAll] leaves of a body: one that was read to its end yields
    nothing more.  A body whose reading failed is left as it is. *)
Definition consumed (r : http.Request) : http.Request :=
  match http.Body r with
  | Some (inr _) => {| http.Body := Some (inr "") |}
  | _ => r
  end.

(** The outcome of [validateToken]: the claims and the error it returns, the
    calls it made, and the request as its caller holds it afterwards.  The
    function works on a copy of the request from [WithContext] on: the header
    map and the body reader are shared with the caller's request, the [Body]
    field is not, so the caller sees a header that was set and a body that
    was read, and not the body that target extraction puts back. *)
Record Validated : Type := {
  claims : option http.JWTClaims;
  err : option error;
  effects : list Effect;
  request : HttpRequest
}.

(** [validateToken], on a verifier that is not nil.  Every step runs only
    while no error has occurred; the branches below are those guards. *)
Definition validateToken (lib : Libraries) (token : string) (cfg : StaticAuth)
  (provider : option (OidcProvider lib))
  (verifier : http.KubernetesApiTokenVerifier) (r : HttpRequest)
  (httpClient : option nat) : Validated :=
  let parsed := ParseJWTClaims lib token in
  let err0 :=
    match parsed.2, parsed.1 with
    | None, None => Some "failed to parse JWT claims from token"
    | e, _ => e
    end in
  match err0, parsed.1 with
  | None, Some c =>
      match ValidateOffline lib c (OAuthAudience cfg) with
      | Some e =>
          {| claims := Some c; err := Some e; effects := []; request := r |}
      | None =>
          match ValidateWithProvider lib c (OAuthAudience cfg) provider with
          | Some e =>
              {| claims := Some c; err := Some e; effects := [];
                 request := r |}
          | None =>
              let logged :=
                [Klog 2 ("JWT token validated - Scopes: "
                         +:+ Sprint_v lib (GetScopes lib c))] in
              let ex := exchangeTokenIfNeeded lib c cfg provider httpClient r in
              match ex.2 with
              | Some e =>
                  {| claims := Some c; err := Some e; effects := logged;
                     request := ex.1.1 |}
              | None =>
                  let reparsed :=
                    if bool_decide (ex.1.2 = "") then (Some c, None)
                    else ParseJWTClaims lib ex.1.2 in
                  match reparsed.2, reparsed.1 with
                  | None, Some c' =>
                      if ValidateToken cfg then
                        let reviewed :=
                          http.validateTokenWithKubernetes
                            (json_Unmarshal lib) (inner ex.1.1) verifier c'
                            (OAuthAudience cfg) in
                        {| claims := Some c'; err := reviewed.2;
                           effects := logged ++ reviewed.1.2;
                           request := setInner ex.1.1 (consumed (inner ex.1.1)) |}
                      else
                        {| claims := Some c'; err := None; effects := logged;
                           request := ex.1.1 |}
                  | e, cl =>
                      {| claims := cl; err := e; effects := logged;
                         request := ex.1.1 |}
                  end
              end
          end
      end
  | e, cl => {| claims := cl; err := e; effects := []; request := r |}
  end.

(** [write401] *)
Definition write401 (lib : Libraries)
  (wwwAuthenticateHeader errorType message : string) : Response :=
  {| Status := 401;
     WWWAuthenticate :=
       wwwAuthenticateHeader +:+ ", error=" +:+ Sprintf_q lib errorType;
     Message := message |}.

(** What the middleware does with a request: it hands it to the next
    handler, or answers itself. *)
Inductive Served : Type :=
| Next (r : HttpRequest)
| Answered (resp : Response).

(** The challenge of the middleware. *)
Definition wwwAuthenticateHeader (lib : Libraries) (cfg : StaticAuth) : string :=
  let base := "Bearer realm=" +:+ dquote +:+ "Kubernetes MCP Server" +:+ dquote in
  if bool_decide (OAuthAudience cfg = "") then base
  else base +:+ ", audience=" +:+ Sprintf_q lib (OAuthAudience cfg).

(** [AuthorizationMiddleware]: what is served and the calls made. *)
Definition AuthorizationMiddleware (lib : Libraries) (cfg : StaticAuth)
  (provider : option (OidcProvider lib))
  (verifier : http.KubernetesApiTokenVerifier) (httpClient : option nat)
  (r : HttpRequest) : Served * list Effect :=
  if bool_decide (Path r = healthEndpoint lib)
     || bool_decide (EscapedPath r ∈ WellKnownEndpoints lib)
  then (Next r, [])
  else if negb (RequireOAuth cfg) then (Next r, [])
  else
    let authHeader := Authorization r in
    if bool_decide (authHeader = "")
       || negb (strings_HasPrefix authHeader "Bearer ")
    then
      (Answered
         (write401 lib (wwwAuthenticateHeader lib cfg) "missing_token"
            "Unauthorized: Bearer token required"),
       [Klog 1
          ("Authentication failed - missing or invalid bearer token: "
           +:+ Method r +:+ " " +:+ Path r +:+ " from " +:+ RemoteAddr r)])
    else
      let token := strings_TrimPrefix authHeader "Bearer " in
      let v := validateToken lib token cfg provider verifier r httpClient in
      match err v with
      | Some e =>
          (Answered
             (write401 lib (wwwAuthenticateHeader lib cfg) "invalid_token"
                "Unauthorized: Invalid token"),
           effects v
           ++ [Klog 1
                 ("Authentication failed - JWT validation error: "
                  +:+ Method r +:+ " " +:+ Path r +:+ " from " +:+ RemoteAddr r
                  +:+ ", error: " +:+ e)])
      | None => (Next (request v), effects v)
      end.

(** The token reviews of a trace: cluster, token and audience, in order. *)
Definition reviewCalls (tr : list Effect) : list (string * string * string) :=
  omap (fun e =>
          match e with
          | CallVerifyToken cluster token audience =>
              Some (cluster, token, audience)
          | _ => None
          end) tr.

End authorization.

(** The registration of a toolset returns no error (or the toolset provides
    no resources). *)
Definition registers (asProvider : Capability) (ts : Toolset) : Prop :=
  match asProvider ts with
  | Some rp => (RegisterResources rp).2 = None
  | None => True
  end.

(** ** More scenarios *)

Module ResourceScenario.

Definition crd : Registration :=
  {| reg_uri := "k8s://crd/functions"; reg_name := "functions-crd";
     reg_mimeType := "application/yaml";
     reg_handler := fun _ => inr "kind: CustomResourceDefinition" |}.

Definition docs : Registration :=
  {| reg_uri := "k8s://docs"; reg_name := "docs";
     reg_mimeType := "text/markdown";
     reg_handler := fun _ => inl "not found" |}.

Definition crd_v2 : Registration :=
  {| reg_uri := "k8s://crd/functions"; reg_name := "functions-crd-v2";
     reg_mimeType := "application/json";
     reg_handler := fun _ => inr "{}" |}.

Definition core : Toolset := {| GetName := "core"; GetTools := fun _ => [] |}.
Definition functions : Toolset :=
  {| GetName := "functions"; GetTools := fun _ => [] |}.
Definition extra : Toolset := {| GetName := "extra"; GetTools := fun _ => [] |}.

(** [functions] and [extra] provide resources, [core] does not; the
    registration of [functions] fails when [failing] is set, after its call. *)
Definition capability (failing : bool) : Capability :=
  fun ts =>
    if bool_decide (GetName ts = "functions")
    then Some {| RegisterResources :=
                   ([crd], if failing then Some "registry closed" else None) |}
    else if bool_decide (GetName ts = "extra")
    then Some {| RegisterResources := ([docs; crd_v2], None) |}
    else None.

Definition config : Configuration :=
  {| staticConfig := Scenario.policy false None;
     toolsets :=
       [ {| GetName := "core"; GetTools := fun _ => [Scenario.pods_list] |} ] |}.

End ResourceScenario.

Module AuthScenario.

Import authorization.

(** Libraries that accept every token but the empty one, exchange a token
    [t] for [x-t] when [exchange] is set, and quote with double quotes. *)
Definition libs (exchange : bool) : Libraries :=
  {| ParsedJWT := string;
     OidcProvider := unit;
     jwt_ParseSigned := fun t =>
       if bool_decide (t = "") then inl "compact JWS format must have three parts"
       else inr t;
     UnsafeClaimsWithoutVerification := fun _ => ("read write", None);
     jwt_Validate := fun _ _ => None;
     oidc_Verify := fun _ _ _ => None;
     sts_IsEnabled := fun _ _ => exchange;
     sts_ExternalAccountTokenExchange := fun _ _ _ t => inr ("x-" +:+ t);
     strings_Fields := fun _ => ["read"; "write"];
     Sprint_v := fun _ => "[read write]";
     Sprintf_q := fun s => dquote +:+ s +:+ dquote;
     healthEndpoint := "/healthz";
     WellKnownEndpoints := ["/.well-known/oauth-protected-resource"];
     json_Unmarshal := Scenario.notJson |}.

Definition protected (review : bool) : StaticAuth :=
  {| RequireOAuth := true; ValidateToken := review; OAuthAudience := "mcp" |}.

Definition call (path authorization : string) : HttpRequest :=
  {| Method := "POST"; Path := path; EscapedPath := path;
     RemoteAddr := "10.0.0.7"; Authorization := authorization;
     inner := {| http.Body := Some (inr "{}") |} |}.

End AuthScenario.

(** ** Lemmas on the loops *)

Lemma rangeTools_spec mutator filt tools a n :
  rangeTools mutator filt tools (a, Some n)
  = ((a ++ kept mutator filt tools),
     Some (n ++ ((fun t => Name (tool t)) <$> kept mutator filt tools))).
Proof.
  revert a n. induction tools as [|t rest IH]; intros a n.
  - cbn. by rewrite !app_nil_r.
  - cbn [rangeTools]. unfold kept. rewrite fmap_cons, filter_cons.
    destruct (filt (mutator t)) eqn:E; cbn [negb].
    + rewrite decide_True by done. unfold append. cbn [fst snd elems].
      rewrite IH. unfold kept. rewrite fmap_cons, <- !app_assoc. done.
    + rewrite decide_False by (by intros ?). apply IH.
Qed.

Lemma kept_app mutator filt l1 l2 :
  kept mutator filt (l1 ++ l2)
  = (kept mutator filt l1 ++ kept mutator filt l2).
Proof. unfold kept. by rewrite fmap_app, filter_app. Qed.

Lemma rangeToolsets_spec mutator filt prov tss a n :
  rangeToolsets mutator filt prov tss (a, Some n)
  = let l := kept mutator filt (concat ((fun ts => GetTools ts prov) <$> tss)) in
    ((a ++ l), Some (n ++ ((fun t => Name (tool t)) <$> l))).
Proof.
  revert a n. induction tss as [|ts rest IH]; intros a n.
  - cbn. by rewrite !app_nil_r.
  - cbn [rangeToolsets]. rewrite rangeTools_spec, IH. cbn zeta.
    rewrite fmap_cons. cbn [concat]. rewrite kept_app, fmap_app, <- !app_assoc.
    done.
Qed.

Lemma computeApplicable_spec env c prov targets :
  computeApplicable env c prov targets
  = let l :=
      kept
        (WithTargetParameter env (GetDefaultTarget prov)
           (GetTargetParameterName prov) targets)
        (CompositeFilter (isToolApplicable c)
           (ShouldIncludeTargetListTool env (GetTargetParameterName prov)
              targets))
        (catalogTools c prov) in
    (l, Some ((fun t => Name (tool t)) <$> l)).
Proof. unfold computeApplicable, make0. by rewrite rangeToolsets_spec. Qed.

Lemma elem_of_toolsToRemove enabled previousTools n :
  n ∈ toolsToRemove enabled previousTools
  ↔ n ∈ previousTools ∧ n ∉ elems enabled.
Proof.
  induction previousTools as [|o rest IH]; cbn.
  - split; [by intros ?%elem_of_nil | by intros [?%elem_of_nil _]].
  - unfold slices_Contains. case_bool_decide as Hin; cbn.
    + rewrite IH, elem_of_cons. split; [naive_solver|].
      intros [[->|?] ?]; naive_solver.
    + rewrite !elem_of_cons, IH. naive_solver.
Qed.

Lemma toolsToRemove_self enabled : toolsToRemove enabled (elems enabled) = [].
Proof.
  destruct (toolsToRemove enabled (elems enabled)) as [|n l] eqn:E; [done|].
  assert (n ∈ toolsToRemove enabled (elems enabled)) as H
    by (rewrite E; apply elem_of_cons; by left).
  apply elem_of_toolsToRemove in H. naive_solver.
Qed.

Lemma addTools_spec env tools srv :
  (addTools env tools srv).1.1 = installAll (convertedPrefix env tools) srv
  ∧ (addTools env tools srv).1.2 = CallAddTool <$> convertedPrefix env tools.
Proof.
  revert srv. induction tools as [|t rest IH]; intros srv; cbn; [done|].
  destruct (ServerToolToGoSdkTool env t) as [err|g]; cbn; [done|].
  destruct (IH (mcp_AddTool g srv)) as [-> ->]. done.
Qed.

Lemma addTools_ok env tools srv :
  (addTools env tools srv).2 = None
  ↔ Forall2 (fun t g => ServerToolToGoSdkTool env t = inr g) tools
      (convertedPrefix env tools).
Proof.
  revert srv. induction tools as [|t rest IH]; intros srv; cbn.
  - split; [constructor | done].
  - destruct (ServerToolToGoSdkTool env t) as [err|g] eqn:E; cbn.
    + split; [done | by intros ?%Forall2_nil_inv_r].
    + rewrite IH. split; [by constructor | by intros [_ ?]%Forall2_cons_1].
Qed.

Lemma lookup_installAll gs (m : Registry) n :
  installAll gs m !! n = match lastNamed n gs with
                         | Some g => Some g
                         | None => m !! n
                         end.
Proof.
  revert m. induction gs as [|g rest IH]; intros m; [done|].
  cbn [installAll foldl]. fold (installAll rest (mcp_AddTool g m)).
  rewrite IH. unfold lastNamed, mcp_AddTool. rewrite filter_cons.
  case_decide as Hn.
  - subst n. destruct (filter _ rest) as [|g' l] eqn:E.
    + cbn. by rewrite lookup_insert_eq.
    + rewrite last_cons_cons.
      destruct (last (g' :: l)) eqn:EL; [done|]. by apply last_None in EL.
  - destruct (last _); [done|]. by rewrite lookup_insert_ne.
Qed.

Lemma installAll_twice gs (m : Registry) :
  installAll gs (installAll gs m) = installAll gs m.
Proof.
  apply map_eq. intros n. rewrite !lookup_installAll.
  by destruct (lastNamed n gs).
Qed.

Lemma mcp_RemoveTools_nil (m : Registry) : mcp_RemoveTools [] m = m.
Proof. done. Qed.

Lemma lookup_RemoveTools ns (m : Registry) n :
  mcp_RemoveTools ns m !! n = if bool_decide (n ∈ ns) then None else m !! n.
Proof.
  revert m. induction ns as [|a ns IH]; intros m.
  - cbn. by rewrite bool_decide_eq_false_2 by apply not_elem_of_nil.
  - cbn [mcp_RemoveTools foldl]. fold (mcp_RemoveTools ns (delete a m)).
    rewrite IH. destruct (decide (n ∈ ns)) as [Hin|Hin].
    + rewrite !bool_decide_eq_true_2; [done| |done]. by apply elem_of_cons; right.
    + rewrite (bool_decide_eq_false_2 (n ∈ ns)) by done.
      destruct (decide (n = a)) as [->|Hne].
      * rewrite bool_decide_eq_true_2 by (apply elem_of_cons; by left).
        apply lookup_delete_eq.
      * rewrite bool_decide_eq_false_2.
        -- by apply lookup_delete_ne.
        -- rewrite elem_of_cons. naive_solver.
Qed.


(** The pass once the resolver has answered: the outcome in closed form. *)
Lemma reload_resolved env s np targets :
  NewProvider env (staticConfig (configuration s)) = inr np ->
  GetTargets np = inr targets ->
  reloadKubernetesClusterProvider env s
  = let computed := computeApplicable env (configuration s) np targets in
    let removals := toolsToRemove computed.2 (elems (enabledTools s)) in
    let gs := convertedPrefix env computed.1 in
    let closing := match p s with Some old => [CallClose old] | None => [] end in
    let s' :=
      {| configuration := configuration s;
         server := installAll gs (mcp_RemoveTools removals (server s));
         enabledTools := computed.2; p := Some np |} in
    match (addTools env computed.1 (mcp_RemoveTools removals (server s))).2 with
    | Some err =>
        (s', closing ++ CallRemoveTools removals :: (CallAddTool <$> gs),
         Some err)
    | None =>
        (s',
         closing ++ CallRemoveTools removals :: (CallAddTool <$> gs)
           ++ [CallWatchTargets np],
         None)
    end.
Proof.
  intros HP HT. unfold reloadKubernetesClusterProvider. rewrite HP, HT.
  cbn zeta.
  destruct (addTools_spec env (computeApplicable env (configuration s) np targets).1
              (mcp_RemoveTools
                 (toolsToRemove
                    (computeApplicable env (configuration s) np targets).2
                    (elems (enabledTools s))) (server s))) as [-> ->].
  done.
Qed.

Lemma addCalls_adds (gs : list GoSdkTool) : addCalls (CallAddTool <$> gs) = gs.
Proof. induction gs as [|g l IH]; [done|]. cbn. by f_equal. Qed.

Lemma removeCalls_adds (gs : list GoSdkTool) :
  removeCalls (CallAddTool <$> gs) = [].
Proof. by induction gs. Qed.

Lemma watchCalls_adds (gs : list GoSdkTool) :
  watchCalls (CallAddTool <$> gs) = [].
Proof. by induction gs. Qed.

Lemma logCalls_adds (gs : list GoSdkTool) : logCalls (CallAddTool <$> gs) = [].
Proof. by induction gs. Qed.

(** The effects of closing the old provider hold no server call, no watch
    and no log. *)
Lemma closing_silent (o : option Provider) :
  let closing := match o with Some old => [CallClose old] | None => [] end in
  removeCalls closing = [] ∧ addCalls closing = [] ∧ watchCalls closing = []
  ∧ logCalls closing = [].
Proof. by destruct o. Qed.

(** ** The applicability filter *)

(** C5. With read-only mode on, every tool of the applicable list that the
    Computing phase of a pass builds carries a read-only annotation that is
    true, whatever the catalog, the mutator and the target-list filter. *)
Theorem readOnly_applicable_tools_are_readOnly env c prov targets t :
  ReadOnly (staticConfig c) = true ->
  t ∈ (computeApplicable env c prov targets).1 ->
  ReadOnlyHint (Annotations (tool t)) = Some true.
Proof.
  intros Hro. rewrite computeApplicable_spec. cbn zeta. cbn [fst].
  unfold kept. rewrite list_elem_of_filter. intros [Hf _].
  unfold CompositeFilter in Hf. apply andb_true_iff in Hf as [Hf _].
  unfold isToolApplicable in Hf. rewrite Hro in Hf. cbn in Hf.
  destruct (ReadOnlyHint (Annotations (tool t))) as [[|]|]; cbn in Hf;
    congruence.
Qed.

Lemma readOnly_applicable_tools_are_readOnly_witness :
  ReadOnly (staticConfig
              (Scenario.config true None
                 [Scenario.pods_list; Scenario.pods_delete] [])) = true
  ∧ ReadOnlyHint (Annotations (tool Scenario.pods_list)) = Some true.
Proof.
  split; [reflexivity|].
  apply (readOnly_applicable_tools_are_readOnly
           (Scenario.collaborators Scenario.oneCluster)
           (Scenario.config true None
              [Scenario.pods_list; Scenario.pods_delete] [])
           Scenario.oneCluster ["prod"] Scenario.pods_list).
  - reflexivity.
  - vm_compute. constructor.
Defined.

(** C6, as amended.  The enabled-tools rule is a factor of the verdict: the
    tool passes it when the enabled-tool names are nil or hold its name.  A
    nil collection restricts nothing; an allocated collection, the empty one
    included, excludes every tool whose name it does not hold, so the empty
    one excludes every tool. *)
Theorem enabledTools_rule_is_nil_guarded c e t :
  isToolApplicable (withEnabledTools c e) t
  = isToolApplicable (withEnabledTools c None) t
    && match e with
       | None => true
       | Some names => bool_decide (Name (tool t) ∈ names)
       end
  ∧ isToolApplicable (withEnabledTools c (Some [])) t = false.
Proof.
  assert (forall e',
    isToolApplicable (withEnabledTools c e') t
    = isToolApplicable (withEnabledTools c None) t
      && match e' with
         | None => true
         | Some names => bool_decide (Name (tool t) ∈ names)
         end) as H.
  { intros e'. unfold isToolApplicable, withEnabledTools, slices_Contains.
    cbn. destruct e' as [names|]; cbn.
    - destruct (ReadOnly _ && _); [done|].
      destruct (DisableDestructive _ && _); [done|].
      case_bool_decide; cbn; [by rewrite andb_true_r|].
      by rewrite andb_false_r.
    - by rewrite andb_true_r. }
  split; [apply H|]. rewrite H. cbn. apply andb_false_r.
Qed.

(** C6 as stated fails: an enabled-tool collection that is allocated and
    empty excludes a tool that every other rule lets pass. *)
Lemma empty_enabledTools_excludes_every_tool :
  elems (EnabledTools (staticConfig (Scenario.config false (Some []) [] [])))
  = []
  ∧ isToolApplicable
      (withEnabledTools (Scenario.config false (Some []) [] []) None)
      Scenario.pods_list = true
  ∧ isToolApplicable (Scenario.config false (Some []) [] [])
      Scenario.pods_list = false.
Proof. repeat split; reflexivity. Qed.

(** ** The reconciliation pass *)

(** C2. When the resolver fails in the Resolving phase, at the construction
    of the provider or at the targets query, the pass returns that error and
    the advertised tools stay as they were: the registry of the protocol
    server and the stored enabled-tool names are unchanged, and the pass
    issues no remove and no add operation. *)
Theorem resolving_failure_keeps_advertised_tools env s e :
  NewProvider env (staticConfig (configuration s)) = inl e
  ∨ (exists np, NewProvider env (staticConfig (configuration s)) = inr np
                ∧ GetTargets np = inl e) ->
  (reloadKubernetesClusterProvider env s).2 = Some e
  ∧ server (reloadKubernetesClusterProvider env s).1.1 = server s
  ∧ enabledTools (reloadKubernetesClusterProvider env s).1.1 = enabledTools s
  ∧ removeCalls (reloadKubernetesClusterProvider env s).1.2 = []
  ∧ addCalls (reloadKubernetesClusterProvider env s).1.2 = [].
Proof.
  unfold reloadKubernetesClusterProvider.
  intros [HP | (np & HP & HT)]; rewrite HP; [done|].
  rewrite HT. cbn. by destruct (p s).
Qed.

Lemma resolving_failure_keeps_advertised_tools_witness :
  (reloadKubernetesClusterProvider
     (Scenario.collaborators Scenario.unreachable)
     (Scenario.running
        (Scenario.config false None [Scenario.pods_list] []))).2
  = Some "connection refused"
  ∧ server
      (reloadKubernetesClusterProvider
         (Scenario.collaborators Scenario.unreachable)
         (Scenario.running
            (Scenario.config false None [Scenario.pods_list] []))).1.1
    = {[ "pods_delete" := Scenario.sdkOf Scenario.pods_delete ]}.
Proof.
  pose proof (resolving_failure_keeps_advertised_tools
                (Scenario.collaborators Scenario.unreachable)
                (Scenario.running
                   (Scenario.config false None [Scenario.pods_list] []))
                "connection refused") as H.
  destruct H as (H1 & H2 & _).
  - right. exists Scenario.unreachable. split; reflexivity.
  - split; [exact H1 | exact H2].
Defined.

(** C3, as amended.  A pass that returns without error has armed the watch
    once, on the provider it constructed, as its last call.  A pass that
    returns an error, from the resolver or from a conversion, has not armed
    any watch. *)
Theorem watch_armed_by_completed_pass_only env s :
  match (reloadKubernetesClusterProvider env s).2 with
  | None =>
      exists np,
        p (reloadKubernetesClusterProvider env s).1.1 = Some np
        ∧ watchCalls (reloadKubernetesClusterProvider env s).1.2 = [np]
        ∧ last (reloadKubernetesClusterProvider env s).1.2
          = Some (CallWatchTargets np)
  | Some _ => watchCalls (reloadKubernetesClusterProvider env s).1.2 = []
  end.
Proof.
  destruct (NewProvider env (staticConfig (configuration s))) as [e|np] eqn:HP.
  { unfold reloadKubernetesClusterProvider. by rewrite HP. }
  destruct (GetTargets np) as [e|targets] eqn:HT.
  { unfold reloadKubernetesClusterProvider. rewrite HP, HT. cbn.
    by destruct (p s). }
  rewrite (reload_resolved env s np targets HP HT). cbn zeta.
  destruct (closing_silent (p s)) as (_ & _ & Hw & _). cbn zeta in Hw.
  destruct (addTools _ _ _).2; cbn [fst snd].
  - unfold watchCalls in *. rewrite omap_app, Hw. cbn.
    apply watchCalls_adds.
  - exists np. split; [done|]. split.
    + unfold watchCalls in *. rewrite omap_app, Hw. cbn.
      rewrite omap_app. fold (watchCalls (CallAddTool <$>
        convertedPrefix env
          (computeApplicable env (configuration s) np targets).1)).
      by rewrite watchCalls_adds.
    + rewrite app_comm_cons, app_assoc. apply last_snoc.
Qed.

(** C3 as stated fails: a pass aborted by a failing targets query returns
    without arming the watch, and leaves the server on a provider on which
    none was armed. *)
Lemma aborted_pass_arms_no_watch :
  (reloadKubernetesClusterProvider
     (Scenario.collaborators Scenario.unreachable)
     (Scenario.running
        (Scenario.config false None [Scenario.pods_list] []))).2
  = Some "connection refused"
  ∧ (reloadKubernetesClusterProvider
       (Scenario.collaborators Scenario.unreachable)
       (Scenario.running
          (Scenario.config false None [Scenario.pods_list] []))).1.2
    = [CallClose Scenario.oneCluster]
  ∧ p (reloadKubernetesClusterProvider
         (Scenario.collaborators Scenario.unreachable)
         (Scenario.running
            (Scenario.config false None [Scenario.pods_list] []))).1.1
    = Some Scenario.unreachable.
Proof. repeat split; reflexivity. Qed.

Lemma remove_before_add pre removals post (i j : nat) names g :
  Forall (fun e => exists q, e = CallClose q) pre ->
  Forall (fun e => forall ns, e ≠ CallRemoveTools ns) post ->
  (pre ++ CallRemoveTools removals :: post) !! i = Some (CallRemoveTools names) ->
  (pre ++ CallRemoveTools removals :: post) !! j = Some (CallAddTool g) ->
  i < j.
Proof.
  intros Hpre Hpost Hi Hj.
  assert (i = length pre) as ->.
  { destruct (decide (i < length pre)) as [Hlt|Hge].
    - rewrite lookup_app_l in Hi by done.
      apply (Forall_lookup_1 _ _ _ _ Hpre) in Hi as [q Hq]. done.
    - rewrite lookup_app_r in Hi by lia.
      destruct (i - length pre) as [|k] eqn:Ek; [lia|].
      cbn in Hi. pose proof (Forall_lookup_1 _ _ _ _ Hpost Hi) as Hn.
      by specialize (Hn names). }
  destruct (decide (j < length pre)) as [Hlt|Hge].
  - rewrite lookup_app_l in Hj by done.
    apply (Forall_lookup_1 _ _ _ _ Hpre) in Hj as [q Hq]. done.
  - rewrite lookup_app_r in Hj by lia.
    destruct (j - length pre) as [|k] eqn:Ek; [done|]. lia.
Qed.

(** C8. In the calls of one pass, every remove operation on the protocol
    server comes before every add operation. *)
Theorem removals_precede_additions env s (i j : nat) names g :
  (reloadKubernetesClusterProvider env s).1.2 !! i
  = Some (CallRemoveTools names) ->
  (reloadKubernetesClusterProvider env s).1.2 !! j = Some (CallAddTool g) ->
  i < j.
Proof.
  destruct (NewProvider env (staticConfig (configuration s))) as [e|np] eqn:HP.
  { unfold reloadKubernetesClusterProvider. by rewrite HP. }
  assert (Forall (fun e => exists q, e = CallClose q)
            match p s with Some old => [CallClose old] | None => [] end) as Hpre.
  { destruct (p s); repeat constructor. by eexists. }
  destruct (GetTargets np) as [e|targets] eqn:HT.
  { unfold reloadKubernetesClusterProvider. rewrite HP, HT. cbn [fst snd].
    intros Hi _. apply (Forall_lookup_1 _ _ _ _ Hpre) in Hi as [q Hq]. done. }
  rewrite (reload_resolved env s np targets HP HT). cbn zeta.
  destruct (addTools _ _ _).2; cbn [fst snd];
    apply remove_before_add; try done.
  - apply Forall_fmap, Forall_true. by intros.
  - apply Forall_app. split.
    + apply Forall_fmap, Forall_true. by intros.
    + by repeat constructor.
Qed.

Lemma removals_precede_additions_witness :
  (reloadKubernetesClusterProvider
     (Scenario.collaborators Scenario.oneCluster)
     (Scenario.running
        (Scenario.config false None [Scenario.pods_list] []))).1.2 !! 1
  = Some (CallRemoveTools ["pods_delete"])
  ∧ (reloadKubernetesClusterProvider
       (Scenario.collaborators Scenario.oneCluster)
       (Scenario.running
          (Scenario.config false None [Scenario.pods_list] []))).1.2 !! 2
    = Some (CallAddTool (Scenario.sdkOf Scenario.pods_list))
  ∧ 1 < 2.
Proof.
  split; [reflexivity|]. split; [reflexivity|].
  apply (removals_precede_additions
           (Scenario.collaborators Scenario.oneCluster)
           (Scenario.running
              (Scenario.config false None [Scenario.pods_list] []))
           1 2 ["pods_delete"] (Scenario.sdkOf Scenario.pods_list));
    reflexivity.
Defined.

Section Resolved.

Variables (env : Collaborators) (s : Server) (np : Provider)
  (targets : list string).
Hypothesis HP : NewProvider env (staticConfig (configuration s)) = inr np.
Hypothesis HT : GetTargets np = inr targets.

Let computed := computeApplicable env (configuration s) np targets.
Let removals := toolsToRemove computed.2 (elems (enabledTools s)).

Lemma reload_resolved_state :
  (reloadKubernetesClusterProvider env s).1.1
  = {| configuration := configuration s;
       server := installAll (convertedPrefix env computed.1)
                   (mcp_RemoveTools removals (server s));
       enabledTools := computed.2; p := Some np |}.
Proof.
  rewrite (reload_resolved env s np targets HP HT). cbn zeta.
  by destruct (addTools _ _ _).2.
Qed.

Lemma reload_resolved_ret :
  (reloadKubernetesClusterProvider env s).2
  = (addTools env computed.1 (mcp_RemoveTools removals (server s))).2.
Proof.
  rewrite (reload_resolved env s np targets HP HT). cbn zeta.
  subst computed removals. by destruct (addTools _ _ _).2.
Qed.

Lemma reload_resolved_removeCalls :
  removeCalls (reloadKubernetesClusterProvider env s).1.2 = [removals].
Proof.
  rewrite (reload_resolved env s np targets HP HT). cbn zeta.
  destruct (closing_silent (p s)) as (Hr & _). cbn zeta in Hr.
  destruct (addTools _ _ _).2; cbn [fst snd]; unfold removeCalls in *;
    rewrite omap_app, Hr; cbn; f_equal.
  - apply removeCalls_adds.
  - rewrite omap_app. cbn. rewrite app_nil_r. apply removeCalls_adds.
Qed.

Lemma reload_resolved_addCalls :
  addCalls (reloadKubernetesClusterProvider env s).1.2
  = convertedPrefix env computed.1.
Proof.
  rewrite (reload_resolved env s np targets HP HT). cbn zeta.
  destruct (closing_silent (p s)) as (_ & Ha & _). cbn zeta in Ha.
  destruct (addTools _ _ _).2; cbn [fst snd]; unfold addCalls in *;
    rewrite omap_app, Ha; cbn.
  - apply addCalls_adds.
  - rewrite omap_app. cbn. rewrite app_nil_r. apply addCalls_adds.
Qed.

Lemma reload_resolved_logCalls :
  logCalls (reloadKubernetesClusterProvider env s).1.2 = [].
Proof.
  rewrite (reload_resolved env s np targets HP HT). cbn zeta.
  destruct (closing_silent (p s)) as (_ & _ & _ & Hl). cbn zeta in Hl.
  destruct (addTools _ _ _).2; cbn [fst snd]; unfold logCalls in *;
    rewrite omap_app, Hl; cbn.
  - apply logCalls_adds.
  - rewrite omap_app. cbn. rewrite app_nil_r. apply logCalls_adds.
Qed.

Lemma reload_resolved_watchCalls :
  watchCalls (reloadKubernetesClusterProvider env s).1.2
  = match (reloadKubernetesClusterProvider env s).2 with
    | Some _ => []
    | None => [np]
    end.
Proof.
  rewrite (reload_resolved env s np targets HP HT). cbn zeta.
  destruct (closing_silent (p s)) as (_ & _ & Hw & _). cbn zeta in Hw.
  destruct (addTools _ _ _).2; cbn [fst snd]; unfold watchCalls in *;
    rewrite omap_app, Hw; cbn.
  - apply watchCalls_adds.
  - rewrite omap_app. cbn.
    fold (watchCalls (CallAddTool <$> convertedPrefix env computed.1)).
    by rewrite watchCalls_adds.
Qed.

End Resolved.

(** C9. Two consecutive passes with the same configuration, catalog and
    collaborators (so the same resolved targets): after the second pass the
    protocol server advertises the same tool names as after the first, the
    very same registry and stored names indeed, and the second pass removes
    no tool: every remove operation it issues carries an empty name list. *)
Theorem consecutive_passes_are_idempotent env s :
  dom (server
         (reloadKubernetesClusterProvider env
            (reloadKubernetesClusterProvider env s).1.1).1.1)
  =@{gset string} dom (server (reloadKubernetesClusterProvider env s).1.1)
  ∧ Forall (fun names => names = [])
      (removeCalls
         (reloadKubernetesClusterProvider env
            (reloadKubernetesClusterProvider env s).1.1).1.2)
  ∧ server
      (reloadKubernetesClusterProvider env
         (reloadKubernetesClusterProvider env s).1.1).1.1
    = server (reloadKubernetesClusterProvider env s).1.1
  ∧ enabledTools
      (reloadKubernetesClusterProvider env
         (reloadKubernetesClusterProvider env s).1.1).1.1
    = enabledTools (reloadKubernetesClusterProvider env s).1.1.
Proof.
  cut (Forall (fun names => names = [])
         (removeCalls
            (reloadKubernetesClusterProvider env
               (reloadKubernetesClusterProvider env s).1.1).1.2)
       ∧ server
           (reloadKubernetesClusterProvider env
              (reloadKubernetesClusterProvider env s).1.1).1.1
         = server (reloadKubernetesClusterProvider env s).1.1
       ∧ enabledTools
           (reloadKubernetesClusterProvider env
              (reloadKubernetesClusterProvider env s).1.1).1.1
         = enabledTools (reloadKubernetesClusterProvider env s).1.1).
  { intros (H1 & H2 & H3). by rewrite H2. }
  destruct (NewProvider env (staticConfig (configuration s))) as [e|np] eqn:HP.
  { unfold reloadKubernetesClusterProvider. rewrite HP. cbn. by rewrite HP. }
  destruct (GetTargets np) as [e|targets] eqn:HT.
  { unfold reloadKubernetesClusterProvider. rewrite HP, HT. cbn.
    rewrite HP, HT. cbn. by destruct (p s). }
  set (s1 := (reloadKubernetesClusterProvider env s).1.1).
  pose proof (reload_resolved_state env s np targets HP HT) as Hs1.
  fold s1 in Hs1.
  assert (configuration s1 = configuration s) as Hc by (by rewrite Hs1).
  assert (NewProvider env (staticConfig (configuration s1)) = inr np) as HP1
    by (by rewrite Hc).
  rewrite (reload_resolved_removeCalls env s1 np targets HP1 HT).
  rewrite (reload_resolved_state env s1 np targets HP1 HT).
  cbn [server enabledTools]. rewrite Hc.
  assert (enabledTools s1
          = (computeApplicable env (configuration s) np targets).2) as ->
    by (by rewrite Hs1).
  rewrite toolsToRemove_self, mcp_RemoveTools_nil.
  split; [by repeat constructor|]. split; [|done].
  rewrite Hs1. cbn [server]. apply installAll_twice.
Qed.

Lemma convertedPrefix_fail env pre t post gs err :
  Forall2 (fun t' g => ServerToolToGoSdkTool env t' = inr g) pre gs ->
  ServerToolToGoSdkTool env t = inl err ->
  convertedPrefix env (pre ++ t :: post) = gs
  ∧ forall srv,
      (addTools env (pre ++ t :: post) srv).2
      = Some ("failed to convert tool " +:+ Name (tool t) +:+ ": " +:+ err).
Proof.
  intros Hpre Ht. induction Hpre as [|t' g pre' gs' Hc _ [IH1 IH2]]; cbn.
  - by rewrite Ht.
  - rewrite Hc. cbn. rewrite IH1. split; [done|]. intros srv. apply IH2.
Qed.

(** C7, as amended.  In a pass that reaches the Diffing phase, the one remove
    operation carries exactly the previous names that are not among the new
    ones, the new names being those of the applicable tools; and the add
    operations are, in order, the conversions of the applicable tools that
    come before the first failing conversion, whether or not their names
    were advertised before.  When the pass returns no error these are the
    conversions of all the applicable tools. *)
Theorem diffing_removes_difference_and_adds_converted_prefix
  env s np targets :
  NewProvider env (staticConfig (configuration s)) = inr np ->
  GetTargets np = inr targets ->
  (exists removals,
     removeCalls (reloadKubernetesClusterProvider env s).1.2 = [removals]
     ∧ forall n,
         n ∈ removals
         ↔ n ∈ elems (enabledTools s)
           ∧ n ∉ elems (enabledTools
                          (reloadKubernetesClusterProvider env s).1.1))
  ∧ elems (enabledTools (reloadKubernetesClusterProvider env s).1.1)
    = (fun t => Name (tool t))
      <$> (computeApplicable env (configuration s) np targets).1
  ∧ addCalls (reloadKubernetesClusterProvider env s).1.2
    = convertedPrefix env (computeApplicable env (configuration s) np targets).1
  ∧ ((reloadKubernetesClusterProvider env s).2 = None ->
     Forall2 (fun t g => ServerToolToGoSdkTool env t = inr g)
       (computeApplicable env (configuration s) np targets).1
       (addCalls (reloadKubernetesClusterProvider env s).1.2)).
Proof.
  intros HP HT.
  rewrite (reload_resolved_removeCalls env s np targets HP HT).
  rewrite (reload_resolved_addCalls env s np targets HP HT).
  rewrite (reload_resolved_ret env s np targets HP HT).
  rewrite (reload_resolved_state env s np targets HP HT). cbn [enabledTools].
  split; [|split; [|split]].
  - eexists. split; [done|]. intros n. apply elem_of_toolsToRemove.
  - by rewrite computeApplicable_spec.
  - done.
  - intros H. by apply addTools_ok in H.
Qed.

Lemma diffing_removes_difference_and_adds_converted_prefix_witness :
  removeCalls
    (reloadKubernetesClusterProvider
       (Scenario.collaborators Scenario.oneCluster)
       (Scenario.running
          (Scenario.config false None [Scenario.pods_list] []))).1.2
  = [["pods_delete"]]
  ∧ addCalls
      (reloadKubernetesClusterProvider
         (Scenario.collaborators Scenario.oneCluster)
         (Scenario.running
            (Scenario.config false None [Scenario.pods_list] []))).1.2
    = [Scenario.sdkOf Scenario.pods_list].
Proof.
  pose proof (diffing_removes_difference_and_adds_converted_prefix
                (Scenario.collaborators Scenario.oneCluster)
                (Scenario.running
                   (Scenario.config false None [Scenario.pods_list] []))
                Scenario.oneCluster ["prod"]) as H.
  destruct H as (_ & _ & H & _); [reflexivity | reflexivity |].
  split; [reflexivity | exact H].
Defined.

(** C7 as stated fails: a pass reaches the Diffing phase, [pods_delete] is in
    its applicable list and was advertised before, yet no add operation
    installs it, because the conversion of a tool before it fails. *)
Lemma applicable_tool_after_failed_conversion_is_not_added :
  (fun t => Name (tool t))
  <$> (computeApplicable (Scenario.collaborators Scenario.oneCluster)
         (Scenario.config false None [Scenario.pods_list; Scenario.bad]
            [Scenario.pods_delete])
         Scenario.oneCluster ["prod"]).1
  = ["pods_list"; "bad"; "pods_delete"]
  ∧ addCalls
      (reloadKubernetesClusterProvider
         (Scenario.collaborators Scenario.oneCluster)
         (Scenario.running
            (Scenario.config false None [Scenario.pods_list; Scenario.bad]
               [Scenario.pods_delete]))).1.2
    = [Scenario.sdkOf Scenario.pods_list].
Proof. split; reflexivity. Qed.

(** C1, as amended.  When the conversion of an applicable tool fails, the
    pass returns the error that names the tool and arms no watch.  By then
    the stored names are the new ones; the one remove operation of the pass
    has carried exactly the previous names that are not among the new ones,
    and the tools that come before the failing one have been added, the
    failing tool and the tools after it have not.  So the protocol server
    binds a name to the last added tool of that name, binds nothing to a
    previous name that is neither new nor added, and binds any other name as
    it did before the pass. *)
Theorem conversion_failure_aborts_after_partial_apply
  env s np targets pre t post gs err :
  NewProvider env (staticConfig (configuration s)) = inr np ->
  GetTargets np = inr targets ->
  (computeApplicable env (configuration s) np targets).1 = pre ++ t :: post ->
  Forall2 (fun t' g => ServerToolToGoSdkTool env t' = inr g) pre gs ->
  ServerToolToGoSdkTool env t = inl err ->
  (reloadKubernetesClusterProvider env s).2
  = Some ("failed to convert tool " +:+ Name (tool t) +:+ ": " +:+ err)
  ∧ enabledTools (reloadKubernetesClusterProvider env s).1.1
    = Some ((fun t' => Name (tool t')) <$> (pre ++ t :: post))
  ∧ server (reloadKubernetesClusterProvider env s).1.1
    = installAll gs
        (mcp_RemoveTools
           (toolsToRemove
              (Some ((fun t' => Name (tool t')) <$> (pre ++ t :: post)))
              (elems (enabledTools s)))
           (server s))
  ∧ addCalls (reloadKubernetesClusterProvider env s).1.2 = gs
  ∧ watchCalls (reloadKubernetesClusterProvider env s).1.2 = []
  ∧ (exists removals,
       removeCalls (reloadKubernetesClusterProvider env s).1.2 = [removals]
       ∧ (forall n,
            n ∈ removals
            ↔ n ∈ elems (enabledTools s)
              ∧ n ∉ (fun t' => Name (tool t')) <$> (pre ++ t :: post))
       ∧ server (reloadKubernetesClusterProvider env s).1.1
         = installAll gs (mcp_RemoveTools removals (server s)))
  ∧ (forall n,
       server (reloadKubernetesClusterProvider env s).1.1 !! n
       = match lastNamed n gs with
         | Some g => Some g
         | None =>
             if bool_decide
                  (n ∈ elems (enabledTools s)
                   ∧ n ∉ (fun t' => Name (tool t')) <$> (pre ++ t :: post))
             then None
             else server s !! n
         end).
Proof.
  intros HP HT Happ Hpre Ht.
  destruct (convertedPrefix_fail env pre t post gs err Hpre Ht) as [Hgs Hret].
  pose proof (reload_resolved_watchCalls env s np targets HP HT) as Hw.
  rewrite (reload_resolved_addCalls env s np targets HP HT).
  rewrite (reload_resolved_removeCalls env s np targets HP HT).
  rewrite (reload_resolved_state env s np targets HP HT).
  rewrite (reload_resolved_ret env s np targets HP HT) in Hw |- *.
  cbn [enabledTools server].
  assert ((computeApplicable env (configuration s) np targets).2
          = Some ((fun t' => Name (tool t')) <$> (pre ++ t :: post))) as ->.
  { rewrite <- Happ. by rewrite computeApplicable_spec. }
  rewrite Happ in Hw |- *. rewrite Hret in Hw |- *. rewrite Hgs, Hw.
  do 5 (split; [done|]). split.
  - eexists. split; [done|]. split; [|done].
    intros n. by rewrite elem_of_toolsToRemove.
  - intros n. rewrite lookup_installAll, lookup_RemoveTools.
    destruct (lastNamed n gs); [done|].
    erewrite bool_decide_ext; [done|]. apply elem_of_toolsToRemove.
Qed.

Lemma conversion_failure_aborts_after_partial_apply_witness :
  (reloadKubernetesClusterProvider
     (Scenario.collaborators Scenario.oneCluster)
     (Scenario.running
        (Scenario.config false None [Scenario.pods_list; Scenario.bad] []))).2
  = Some "failed to convert tool bad: malformed schema"
  ∧ addCalls
      (reloadKubernetesClusterProvider
         (Scenario.collaborators Scenario.oneCluster)
         (Scenario.running
            (Scenario.config false None [Scenario.pods_list; Scenario.bad]
               []))).1.2
    = [Scenario.sdkOf Scenario.pods_list]
  ∧ (exists removals,
       removeCalls
         (reloadKubernetesClusterProvider
            (Scenario.collaborators Scenario.oneCluster)
            (Scenario.running
               (Scenario.config false None [Scenario.pods_list; Scenario.bad]
                  []))).1.2
       = [removals]
       ∧ "pods_delete" ∈ removals
       ∧ "pods_list" ∉ removals)
  ∧ server
      (reloadKubernetesClusterProvider
         (Scenario.collaborators Scenario.oneCluster)
         (Scenario.running
            (Scenario.config false None [Scenario.pods_list; Scenario.bad]
               []))).1.1 !! "pods_delete"
    = None
  ∧ server
      (reloadKubernetesClusterProvider
         (Scenario.collaborators Scenario.oneCluster)
         (Scenario.running
            (Scenario.config false None [Scenario.pods_list; Scenario.bad]
               []))).1.1 !! "pods_list"
    = Some (Scenario.sdkOf Scenario.pods_list).
Proof.
  pose proof (conversion_failure_aborts_after_partial_apply
                (Scenario.collaborators Scenario.oneCluster)
                (Scenario.running
                   (Scenario.config false None
                      [Scenario.pods_list; Scenario.bad] []))
                Scenario.oneCluster ["prod"]
                [Scenario.pods_list] Scenario.bad []
                [Scenario.sdkOf Scenario.pods_list] "malformed schema") as H.
  destruct H as (H1 & _ & _ & H4 & _ & (removals & Hr & Hiff & _) & Hlook).
  - reflexivity.
  - reflexivity.
  - reflexivity.
  - repeat constructor.
  - reflexivity.
  - split; [exact H1|]. split; [exact H4|]. split; [|split].
    + exists removals. split; [exact Hr|]. split.
      * apply Hiff. split; [vm_compute; constructor|].
        vm_compute. intros Hin.
        apply elem_of_cons in Hin as [Hin|Hin]; [discriminate|].
        apply list_elem_of_singleton in Hin. discriminate.
      * intros Hin%Hiff. destruct Hin as [Hin _]. vm_compute in Hin.
        apply list_elem_of_singleton in Hin. discriminate.
    + rewrite Hlook. reflexivity.
    + rewrite Hlook. reflexivity.
Defined.

(** C1 as stated fails: after a pass aborted by a failing conversion a tool
    advertised before is gone, a new tool is advertised, and the stored
    names are the new ones. *)
Lemma conversion_failure_changes_advertised_tools :
  (reloadKubernetesClusterProvider
     (Scenario.collaborators Scenario.oneCluster)
     (Scenario.running
        (Scenario.config false None [Scenario.pods_list; Scenario.bad] []))).2
  = Some "failed to convert tool bad: malformed schema"
  ∧ server
      (Scenario.running
         (Scenario.config false None [Scenario.pods_list; Scenario.bad] []))
    !! "pods_delete" = Some (Scenario.sdkOf Scenario.pods_delete)
  ∧ server
      (reloadKubernetesClusterProvider
         (Scenario.collaborators Scenario.oneCluster)
         (Scenario.running
            (Scenario.config false None [Scenario.pods_list; Scenario.bad]
               []))).1.1
    = {[ "pods_list" := Scenario.sdkOf Scenario.pods_list ]}
  ∧ enabledTools
      (Scenario.running
         (Scenario.config false None [Scenario.pods_list; Scenario.bad] []))
    = Some ["pods_delete"]
  ∧ enabledTools
      (reloadKubernetesClusterProvider
         (Scenario.collaborators Scenario.oneCluster)
         (Scenario.running
            (Scenario.config false None [Scenario.pods_list; Scenario.bad]
               []))).1.1
    = Some ["pods_list"; "bad"].
Proof. repeat split; vm_compute; reflexivity. Qed.

(** C4, as amended.  The Computing phase does not track tool names for
    uniqueness and a pass reports nothing to the logger.  Every catalog entry
    that passes the filters once mutated, whatever the names of the entries
    before it, is appended in catalog order to the applicable list and to the
    stored names, and the entries are added in that order; so of the added
    tools that share a name the last one is the one the protocol server
    advertises.  The outcome is a function of the inputs. *)
Theorem duplicate_names_are_kept_and_not_reported env s :
  logCalls (reloadKubernetesClusterProvider env s).1.2 = []
  ∧ forall np targets,
      NewProvider env (staticConfig (configuration s)) = inr np ->
      GetTargets np = inr targets ->
      (computeApplicable env (configuration s) np targets).1
      = kept
          (WithTargetParameter env (GetDefaultTarget np)
             (GetTargetParameterName np) targets)
          (CompositeFilter (isToolApplicable (configuration s))
             (ShouldIncludeTargetListTool env (GetTargetParameterName np)
                targets))
          (catalogTools (configuration s) np)
      ∧ enabledTools (reloadKubernetesClusterProvider env s).1.1
        = Some ((fun t => Name (tool t))
                <$> (computeApplicable env (configuration s) np targets).1)
      ∧ addCalls (reloadKubernetesClusterProvider env s).1.2
        = convertedPrefix env
            (computeApplicable env (configuration s) np targets).1
      ∧ forall n g,
          lastNamed n (addCalls (reloadKubernetesClusterProvider env s).1.2)
          = Some g ->
          server (reloadKubernetesClusterProvider env s).1.1 !! n = Some g.
Proof.
  split.
  - destruct (NewProvider env (staticConfig (configuration s)))
      as [e|np] eqn:HP.
    { unfold reloadKubernetesClusterProvider. by rewrite HP. }
    destruct (GetTargets np) as [e|targets] eqn:HT.
    { unfold reloadKubernetesClusterProvider. rewrite HP, HT. cbn.
      by destruct (p s). }
    apply (reload_resolved_logCalls env s np targets HP HT).
  - intros np targets HP HT.
    rewrite (reload_resolved_addCalls env s np targets HP HT).
    rewrite (reload_resolved_state env s np targets HP HT).
    cbn [enabledTools server]. rewrite computeApplicable_spec. cbn zeta.
    cbn [fst snd]. repeat split.
    intros n g Hlast. by rewrite lookup_installAll, Hlast.
Qed.

Lemma duplicate_names_are_kept_and_not_reported_witness :
  logCalls
    (reloadKubernetesClusterProvider
       (Scenario.collaborators Scenario.oneCluster)
       (Scenario.fresh
          (Scenario.config false None [Scenario.pods_list]
             [Scenario.pods_list_again]))).1.2
  = []
  ∧ server
      (reloadKubernetesClusterProvider
         (Scenario.collaborators Scenario.oneCluster)
         (Scenario.fresh
            (Scenario.config false None [Scenario.pods_list]
               [Scenario.pods_list_again]))).1.1
    !! "pods_list" = Some (Scenario.sdkOf Scenario.pods_list_again).
Proof.
  pose proof (duplicate_names_are_kept_and_not_reported
                (Scenario.collaborators Scenario.oneCluster)
                (Scenario.fresh
                   (Scenario.config false None [Scenario.pods_list]
                      [Scenario.pods_list_again]))) as [Hlog H].
  split; [exact Hlog|].
  destruct (H Scenario.oneCluster ["prod"]) as (_ & _ & _ & Hlast);
    [reflexivity | reflexivity |].
  apply Hlast. reflexivity.
Defined.

(** C4 as stated fails: two toolsets hold a tool named [pods_list]; the pass
    returns no error and calls the logger not at all (its calls are one
    remove, two adds and the watch), and the stored names hold the name
    twice. *)
Lemma duplicate_name_is_not_reported :
  reloadKubernetesClusterProvider
    (Scenario.collaborators Scenario.oneCluster)
    (Scenario.fresh
       (Scenario.config false None [Scenario.pods_list]
          [Scenario.pods_list_again]))
  = ({| configuration :=
          Scenario.config false None [Scenario.pods_list]
            [Scenario.pods_list_again];
        server := {[ "pods_list" := Scenario.sdkOf Scenario.pods_list_again ]};
        enabledTools := Some ["pods_list"; "pods_list"];
        p := Some Scenario.oneCluster |},
     [CallRemoveTools [];
      CallAddTool (Scenario.sdkOf Scenario.pods_list);
      CallAddTool (Scenario.sdkOf Scenario.pods_list_again);
      CallWatchTargets Scenario.oneCluster],
     None).
Proof. vm_compute. reflexivity. Qed.

(** ** Target extraction *)

(** C10. Target extraction returns an error exactly when reading the body
    fails.  On a body that was read and that is not valid JSON, or in which
    the target parameter is absent or not a string, it returns the empty
    target and no error; token review is then called with the empty target,
    which stands for the default one, and nothing is logged. *)
Theorem extractTarget_errs_only_on_unreadable_body json r targetName :
  (forall e,
     (http.extractTargetFromRequest json r targetName).2 = Some e
     ↔ http.Body r = Some (inl e))
  ∧ (forall body,
       http.Body r = Some (inr body) ->
       http.noStringTarget json body targetName ->
       (http.extractTargetFromRequest json r targetName).1.2 = ""
       ∧ (http.extractTargetFromRequest json r targetName).2 = None)
  ∧ (forall verifier claims audience body,
       http.Body r = Some (inr body) ->
       http.noStringTarget json body (http.GetTargetParameterName verifier) ->
       (http.validateTokenWithKubernetes json r verifier claims audience).1.2
       = [CallVerifyToken "" (http.Token claims) audience]).
Proof.
  assert (forall name body,
            http.Body r = Some (inr body) ->
            http.noStringTarget json body name ->
            (http.extractTargetFromRequest json r name).1.2 = ""
            ∧ (http.extractTargetFromRequest json r name).2 = None) as Hsilent.
  { intros name body Hb Hn.
    unfold http.extractTargetFromRequest, http.noStringTarget in *.
    rewrite Hb. destruct (json body) as [e|req]; [done|].
    destruct (http.Arguments (http.Params req) !! name) as [[]|]; done. }
  split; [|split].
  - intros e. unfold http.extractTargetFromRequest.
    destruct (http.Body r) as [[e'|body]|]; cbn.
    + split; congruence.
    + destruct (json body) as [?|req]; cbn; [split; congruence|].
      destruct (http.Arguments (http.Params req) !! targetName) as [[]|];
        cbn; split; congruence.
    + split; congruence.
  - apply Hsilent.
  - intros verifier claims audience body Hb Hn.
    destruct (Hsilent _ _ Hb Hn) as [Ht He].
    unfold http.validateTokenWithKubernetes. cbn zeta. rewrite Ht, He.
    unfold http.ValidateWithKubernetesApi.
    by destruct (http.KubernetesApiVerifyToken verifier "" _ audience).
Qed.

Lemma extractTarget_errs_only_on_unreadable_body_witness :
  http.extractTargetFromRequest Scenario.notJson
    {| http.Body := Some (inr "pods") |} "context"
  = ({| http.Body := Some (inr "pods") |}, "", None)
  ∧ (http.validateTokenWithKubernetes Scenario.notJson
       {| http.Body := Some (inr "{}") |} Scenario.reviewer Scenario.bearer
       "mcp").1.2
    = [CallVerifyToken "" "t0" "mcp"].
Proof.
  split; [reflexivity|].
  destruct (extractTarget_errs_only_on_unreadable_body Scenario.notJson
              {| http.Body := Some (inr "{}") |} "context") as (_ & _ & H).
  apply (H Scenario.reviewer Scenario.bearer "mcp" "{}");
    [reflexivity | vm_compute; exact I].
Defined.

(** ** More on the applicability of tools *)

(** X1. With destructive tools disabled, no tool of the applicable list that
    a pass builds carries a destructive annotation that is true. *)
Theorem disableDestructive_applicable_tools_are_not_destructive
  env c prov targets t :
  DisableDestructive (staticConfig c) = true ->
  t ∈ (computeApplicable env c prov targets).1 ->
  DestructiveHint (Annotations (tool t)) ≠ Some true.
Proof.
  intros Hdd. rewrite computeApplicable_spec. cbn zeta. cbn [fst].
  unfold kept. rewrite list_elem_of_filter. intros [Hf _] Hd.
  unfold CompositeFilter in Hf. apply andb_true_iff in Hf as [Hf _].
  unfold isToolApplicable in Hf. rewrite Hdd, Hd in Hf. cbn in Hf.
  by destruct (ReadOnly _ && _).
Qed.

Lemma disableDestructive_applicable_tools_are_not_destructive_witness :
  DestructiveHint (Annotations (tool Scenario.pods_list)) ≠ Some true.
Proof.
  apply (disableDestructive_applicable_tools_are_not_destructive
           (Scenario.collaborators Scenario.oneCluster)
           {| staticConfig :=
                {| ReadOnly := false; DisableDestructive := true;
                   EnabledTools := None; DisabledTools := None;
                   Toolsets_names := ["core"]; ListOutput := "table" |};
              toolsets :=
                Scenario.catalog [Scenario.pods_list; Scenario.pods_delete] [] |}
           Scenario.oneCluster ["prod"] Scenario.pods_list).
  - reflexivity.
  - vm_compute. constructor.
Defined.

(** X2. No tool of the applicable list bears a name of the disabled-tool
    names, whatever the enabled-tool names hold: the deny list wins. *)
Theorem disabled_tools_are_never_applicable env c prov targets t :
  t ∈ (computeApplicable env c prov targets).1 ->
  Name (tool t) ∉ elems (DisabledTools (staticConfig c)).
Proof.
  rewrite computeApplicable_spec. cbn zeta. cbn [fst].
  unfold kept. rewrite list_elem_of_filter. intros [Hf _] Hin.
  unfold CompositeFilter in Hf. apply andb_true_iff in Hf as [Hf _].
  unfold isToolApplicable, slices_Contains in Hf.
  destruct (ReadOnly _ && _); [done|].
  destruct (DisableDestructive _ && _); [done|].
  destruct (notNil (EnabledTools _) && _); [done|].
  destruct (DisabledTools (staticConfig c)) as [names|]; cbn in *.
  - by rewrite bool_decide_eq_true_2 in Hf.
  - by apply elem_of_nil in Hin.
Qed.

Lemma disabled_tools_are_never_applicable_witness :
  Name (tool Scenario.pods_list) ∉ ["pods_delete"; "pods_list_x"].
Proof.
  apply (disabled_tools_are_never_applicable
           (Scenario.collaborators Scenario.oneCluster)
           {| staticConfig :=
                {| ReadOnly := false; DisableDestructive := false;
                   EnabledTools := Some ["pods_list"; "pods_delete"];
                   DisabledTools := Some ["pods_delete"; "pods_list_x"];
                   Toolsets_names := ["core"]; ListOutput := "table" |};
              toolsets :=
                Scenario.catalog [Scenario.pods_list; Scenario.pods_delete] [] |}
           Scenario.oneCluster ["prod"] Scenario.pods_list).
  vm_compute. constructor.
Defined.

(** X3. When enabled-tool names are set, every tool of the applicable list
    bears one of them, and so does every stored name. *)
Theorem enabled_tools_bound_the_applicable_list env c prov targets names t :
  EnabledTools (staticConfig c) = Some names ->
  t ∈ (computeApplicable env c prov targets).1 ->
  Name (tool t) ∈ names
  ∧ forall n, n ∈ elems (computeApplicable env c prov targets).2 -> n ∈ names.
Proof.
  intros He.
  assert (forall t', t' ∈ (computeApplicable env c prov targets).1 ->
                     Name (tool t') ∈ names) as H.
  { intros t'. rewrite computeApplicable_spec. cbn zeta. cbn [fst].
    unfold kept. rewrite list_elem_of_filter. intros [Hf _].
    unfold CompositeFilter in Hf. apply andb_true_iff in Hf as [Hf _].
    unfold isToolApplicable, slices_Contains in Hf. rewrite He in Hf.
    destruct (ReadOnly _ && _); [done|].
    destruct (DisableDestructive _ && _); [done|]. cbn in Hf.
    by case_bool_decide. }
  intros Ht. split; [by apply H|]. intros n.
  rewrite computeApplicable_spec in H |- *. cbn zeta in *. cbn [fst snd elems] in *.
  intros (t' & -> & Ht')%list_elem_of_fmap. by apply H.
Qed.

Lemma enabled_tools_bound_the_applicable_list_witness :
  Name (tool Scenario.pods_list) ∈ ["pods_list"].
Proof.
  refine (proj1 (enabled_tools_bound_the_applicable_list
                   (Scenario.collaborators Scenario.oneCluster)
                   (Scenario.config false (Some ["pods_list"])
                      [Scenario.pods_list; Scenario.pods_delete] [])
                   Scenario.oneCluster ["prod"] ["pods_list"]
                   Scenario.pods_list _ _)).
  - reflexivity.
  - vm_compute. constructor.
Defined.

(** X4. The applicable list of a pass holds exactly the mutated catalog
    tools that pass the policy filter and the target-list filter: none is
    dropped and none is invented. *)
Theorem applicable_list_is_the_filtered_catalog env c prov targets t' :
  t' ∈ (computeApplicable env c prov targets).1
  ↔ exists t,
      t ∈ catalogTools c prov
      ∧ t' = WithTargetParameter env (GetDefaultTarget prov)
               (GetTargetParameterName prov) targets t
      ∧ isToolApplicable c t' = true
      ∧ ShouldIncludeTargetListTool env (GetTargetParameterName prov) targets t'
        = true.
Proof.
  rewrite computeApplicable_spec. cbn zeta. cbn [fst]. unfold kept.
  rewrite list_elem_of_filter, list_elem_of_fmap. unfold CompositeFilter.
  rewrite andb_true_iff. naive_solver.
Qed.

(** ** More on the reconciliation pass *)

Lemma lastNamed_None n gs :
  lastNamed n gs = None ↔ forall g, g ∈ gs -> SdkName g ≠ n.
Proof.
  unfold lastNamed. rewrite last_None. split.
  - intros Hnil g Hg Hn.
    assert (g ∈ filter (fun g => SdkName g = n) gs) as Hin
      by (by apply list_elem_of_filter).
    rewrite Hnil in Hin. by apply elem_of_nil in Hin.
  - intros H. apply elem_of_nil_inv. intros g [Hn Hg]%list_elem_of_filter.
    by apply (H g).
Qed.

Lemma lastNamed_Some n gs g :
  lastNamed n gs = Some g -> g ∈ gs ∧ SdkName g = n.
Proof.
  unfold lastNamed. intros H%last_Some_elem_of.
  apply list_elem_of_filter in H. naive_solver.
Qed.

Lemma elem_of_advertised_installAll gs (m : Registry) n :
  n ∈ advertised (installAll gs m)
  ↔ (exists g, g ∈ gs ∧ SdkName g = n) ∨ n ∈ advertised m.
Proof.
  unfold advertised. rewrite !elem_of_dom, lookup_installAll.
  destruct (lastNamed n gs) as [g|] eqn:E.
  - apply lastNamed_Some in E. split; [|by eauto]. intros _. left. by exists g.
  - rewrite lastNamed_None in E. split; [by right|].
    intros [(g & Hg & Hn)|H]; [|done]. by destruct (E g Hg).
Qed.

Lemma elem_of_advertised_RemoveTools ns (m : Registry) n :
  n ∈ advertised (mcp_RemoveTools ns m) ↔ n ∈ advertised m ∧ n ∉ ns.
Proof.
  unfold advertised. rewrite !elem_of_dom, lookup_RemoveTools.
  case_bool_decide; [|naive_solver].
  split; [by intros [? ?] | naive_solver].
Qed.

Lemma convertedPrefix_named env tools g :
  (forall t g', ServerToolToGoSdkTool env t = inr g' ->
                SdkName g' = Name (tool t)) ->
  g ∈ convertedPrefix env tools ->
  SdkName g ∈ (fun t => Name (tool t)) <$> tools.
Proof.
  intros Hname. induction tools as [|t rest IH]; cbn.
  - by intros ?%elem_of_nil.
  - destruct (ServerToolToGoSdkTool env t) as [e|g'] eqn:E.
    + by intros ?%elem_of_nil.
    + rewrite !elem_of_cons. intros [->|Hin].
      * left. by apply Hname.
      * right. by apply IH.
Qed.

Lemma converted_all_named env tools gs n :
  (forall t g', ServerToolToGoSdkTool env t = inr g' ->
                SdkName g' = Name (tool t)) ->
  Forall2 (fun t g => ServerToolToGoSdkTool env t = inr g) tools gs ->
  n ∈ (fun t => Name (tool t)) <$> tools ->
  exists g, g ∈ gs ∧ SdkName g = n.
Proof.
  intros Hname H. induction H as [|t g tools gs Hc _ IH].
  - by intros ?%elem_of_nil.
  - rewrite fmap_cons, elem_of_cons. intros [->|Hin].
    + exists g. split; [by apply elem_of_cons; left | by apply Hname].
    + destruct (IH Hin) as (g' & ? & ?). exists g'.
      split; [by apply elem_of_cons; right | done].
Qed.

Lemma closeCalls_adds (gs : list GoSdkTool) :
  closeCalls (CallAddTool <$> gs) = [].
Proof. by induction gs. Qed.

Lemma advertised_after_resolved env s np targets n :
  NewProvider env (staticConfig (configuration s)) = inr np ->
  GetTargets np = inr targets ->
  n ∈ advertised (server (reloadKubernetesClusterProvider env s).1.1)
  ↔ (exists g,
       g ∈ convertedPrefix env
             (computeApplicable env (configuration s) np targets).1
       ∧ SdkName g = n)
    ∨ (n ∈ advertised (server s)
       ∧ ¬ (n ∈ elems (enabledTools s)
            ∧ n ∉ elems (computeApplicable env (configuration s) np targets).2)).
Proof.
  intros HP HT. rewrite (reload_resolved_state env s np targets HP HT).
  cbn [server].
  by rewrite elem_of_advertised_installAll, elem_of_advertised_RemoveTools,
    elem_of_toolsToRemove.
Qed.

Lemma stored_after_resolved env s np targets :
  NewProvider env (staticConfig (configuration s)) = inr np ->
  GetTargets np = inr targets ->
  elems (enabledTools (reloadKubernetesClusterProvider env s).1.1)
  = (fun t => Name (tool t))
    <$> (computeApplicable env (configuration s) np targets).1.
Proof.
  intros HP HT. rewrite (reload_resolved_state env s np targets HP HT).
  cbn [enabledTools]. by rewrite computeApplicable_spec.
Qed.

(** X5. A pass keeps the protocol server within the stored names: when the
    conversion keeps the names of the tools and the server advertised stored
    names only before the pass, it advertises stored names only after the
    pass, whether the pass completed or was aborted at any step. *)
Theorem pass_keeps_advertised_within_stored env s :
  (forall t g, ServerToolToGoSdkTool env t = inr g ->
               SdkName g = Name (tool t)) ->
  advertised (server s) ⊆ storedNames s ->
  advertised (server (reloadKubernetesClusterProvider env s).1.1)
  ⊆ storedNames (reloadKubernetesClusterProvider env s).1.1.
Proof.
  intros Hname Hinv.
  destruct (NewProvider env (staticConfig (configuration s))) as [e|np] eqn:HP.
  { unfold reloadKubernetesClusterProvider. by rewrite HP. }
  destruct (GetTargets np) as [e|targets] eqn:HT.
  { unfold reloadKubernetesClusterProvider. by rewrite HP, HT. }
  intros n. rewrite (advertised_after_resolved env s np targets n HP HT).
  unfold storedNames in *. rewrite elem_of_list_to_set.
  rewrite (stored_after_resolved env s np targets HP HT).
  intros [(g & Hg & <-)|[Hadv Hrm]].
  - by apply (convertedPrefix_named env _ g Hname).
  - apply Hinv, elem_of_list_to_set in Hadv.
    rewrite computeApplicable_spec in Hrm |- *. cbn zeta in *.
    cbn [fst snd elems] in *.
    match goal with
    | |- ?n ∈ ?l => destruct (decide (n ∈ l)); [done | naive_solver]
    end.
Qed.

Lemma pass_keeps_advertised_within_stored_witness :
  advertised
    (server
       (reloadKubernetesClusterProvider
          (Scenario.collaborators Scenario.oneCluster)
          (Scenario.running
             (Scenario.config false None [Scenario.pods_list; Scenario.bad]
                []))).1.1)
  ⊆ storedNames
      (reloadKubernetesClusterProvider
         (Scenario.collaborators Scenario.oneCluster)
         (Scenario.running
            (Scenario.config false None [Scenario.pods_list; Scenario.bad]
               []))).1.1.
Proof.
  apply (pass_keeps_advertised_within_stored
           (Scenario.collaborators Scenario.oneCluster)
           (Scenario.running
              (Scenario.config false None [Scenario.pods_list; Scenario.bad]
                 []))).
  - intros t g. cbn. case_bool_decide; [done|]. by intros [= <-].
  - intros n. unfold advertised, storedNames. cbn.
    rewrite dom_singleton_L. set_solver.
Defined.

(** X6. A pass that completes leaves the protocol server and the stored
    names in step: under the same two conditions, the names advertised after
    a pass that returned no error are exactly the stored names. *)
Theorem completed_pass_advertises_the_stored_names env s :
  (forall t g, ServerToolToGoSdkTool env t = inr g ->
               SdkName g = Name (tool t)) ->
  advertised (server s) ⊆ storedNames s ->
  (reloadKubernetesClusterProvider env s).2 = None ->
  advertised (server (reloadKubernetesClusterProvider env s).1.1)
  = storedNames (reloadKubernetesClusterProvider env s).1.1.
Proof.
  intros Hname Hinv.
  destruct (NewProvider env (staticConfig (configuration s))) as [e|np] eqn:HP.
  { unfold reloadKubernetesClusterProvider. by rewrite HP. }
  destruct (GetTargets np) as [e|targets] eqn:HT.
  { unfold reloadKubernetesClusterProvider. by rewrite HP, HT. }
  rewrite (reload_resolved_ret env s np targets HP HT).
  intros Hok%addTools_ok. apply set_eq. intros n.
  rewrite (advertised_after_resolved env s np targets n HP HT).
  unfold storedNames in *. rewrite elem_of_list_to_set.
  rewrite (stored_after_resolved env s np targets HP HT).
  split.
  - intros [(g & Hg & <-)|[Hadv Hrm]].
    + by apply (convertedPrefix_named env _ g Hname).
    + apply Hinv, elem_of_list_to_set in Hadv.
      rewrite computeApplicable_spec in Hrm |- *. cbn zeta in *.
      cbn [fst snd elems] in *.
      match goal with
      | |- ?n ∈ ?l => destruct (decide (n ∈ l)); [done | naive_solver]
      end.
  - intros Hn. left. by apply (converted_all_named env _ _ n Hname Hok).
Qed.

Lemma completed_pass_advertises_the_stored_names_witness :
  advertised
    (server
       (reloadKubernetesClusterProvider
          (Scenario.collaborators Scenario.oneCluster)
          (Scenario.running
             (Scenario.config false None [Scenario.pods_list] []))).1.1)
  = storedNames
      (reloadKubernetesClusterProvider
         (Scenario.collaborators Scenario.oneCluster)
         (Scenario.running
            (Scenario.config false None [Scenario.pods_list] []))).1.1.
Proof.
  apply (completed_pass_advertises_the_stored_names
           (Scenario.collaborators Scenario.oneCluster)
           (Scenario.running
              (Scenario.config false None [Scenario.pods_list] []))).
  - intros t g. cbn. case_bool_decide; [done|]. by intros [= <-].
  - intros n. unfold advertised, storedNames. cbn.
    rewrite dom_singleton_L. set_solver.
  - reflexivity.
Defined.

(** X7. A pass leaves alone the tools it is not concerned with: a name that
    was not stored before the pass and that no add operation of the pass
    bears is bound in the protocol server after the pass as it was before. *)
Theorem pass_leaves_foreign_tools env s n :
  n ∉ elems (enabledTools s) ->
  (forall g, g ∈ addCalls (reloadKubernetesClusterProvider env s).1.2 ->
             SdkName g ≠ n) ->
  server (reloadKubernetesClusterProvider env s).1.1 !! n = server s !! n.
Proof.
  intros Hprev.
  destruct (NewProvider env (staticConfig (configuration s))) as [e|np] eqn:HP.
  { unfold reloadKubernetesClusterProvider. by rewrite HP. }
  destruct (GetTargets np) as [e|targets] eqn:HT.
  { unfold reloadKubernetesClusterProvider. by rewrite HP, HT. }
  rewrite (reload_resolved_addCalls env s np targets HP HT).
  rewrite (reload_resolved_state env s np targets HP HT). cbn [server].
  intros Hadd%lastNamed_None. rewrite lookup_installAll, Hadd.
  rewrite lookup_RemoveTools, bool_decide_eq_false_2; [done|].
  rewrite elem_of_toolsToRemove. naive_solver.
Qed.

Lemma pass_leaves_foreign_tools_witness :
  server
    (reloadKubernetesClusterProvider
       (Scenario.collaborators Scenario.oneCluster)
       {| configuration := Scenario.config false None [Scenario.pods_list] [];
          server := {[ "pods_delete" := Scenario.sdkOf Scenario.pods_delete ]};
          enabledTools := None; p := None |}).1.1 !! "pods_delete"
  = Some (Scenario.sdkOf Scenario.pods_delete).
Proof.
  rewrite (pass_leaves_foreign_tools
             (Scenario.collaborators Scenario.oneCluster)
             {| configuration :=
                  Scenario.config false None [Scenario.pods_list] [];
                server :=
                  {[ "pods_delete" := Scenario.sdkOf Scenario.pods_delete ]};
                enabledTools := None; p := None |} "pods_delete").
  - reflexivity.
  - cbn. apply not_elem_of_nil.
  - intros g Hg. vm_compute in Hg. apply list_elem_of_singleton in Hg.
    by subst g.
Defined.

(** X8. The hand-over of the provider: when the construction of the new
    provider fails the server keeps its provider and the pass closes none;
    when it succeeds the server holds the new provider from then on, even if
    the pass fails later, and the pass has closed the provider the server
    held, once, and no other. *)
Theorem pass_hands_over_the_provider env s :
  match NewProvider env (staticConfig (configuration s)) with
  | inl _ =>
      p (reloadKubernetesClusterProvider env s).1.1 = p s
      ∧ closeCalls (reloadKubernetesClusterProvider env s).1.2 = []
  | inr np =>
      p (reloadKubernetesClusterProvider env s).1.1 = Some np
      ∧ closeCalls (reloadKubernetesClusterProvider env s).1.2
        = match p s with
          | Some old => [old]
          | None => []
          end
  end.
Proof.
  destruct (NewProvider env (staticConfig (configuration s))) as [e|np] eqn:HP.
  { unfold reloadKubernetesClusterProvider. by rewrite HP. }
  destruct (GetTargets np) as [e|targets] eqn:HT.
  { unfold reloadKubernetesClusterProvider. rewrite HP, HT. cbn.
    by destruct (p s). }
  rewrite (reload_resolved_state env s np targets HP HT).
  split; [done|].
  rewrite (reload_resolved env s np targets HP HT). cbn zeta.
  destruct (addTools _ _ _).2; cbn [fst snd]; unfold closeCalls;
    rewrite omap_app; cbn; rewrite ?omap_app; cbn;
    fold (closeCalls (CallAddTool <$> convertedPrefix env
            (computeApplicable env (configuration s) np targets).1));
    rewrite closeCalls_adds; destruct (p s); done.
Qed.

(** ** Token review through the server *)

(** X9. A server that holds no provider answers the empty target parameter
    name, and a token review through it fails with the error that the
    provider is not initialized, whatever the request and the token; the
    upstream reviewer is not consulted. *)
Theorem review_without_provider_is_refused VerifyToken s json r claims audience :
  p s = None ->
  http.GetTargetParameterName (asVerifier VerifyToken s) = ""
  ∧ (http.validateTokenWithKubernetes json r (asVerifier VerifyToken s) claims
       audience).2
    = Some ("kubernetes API token validation error: "
            +:+ "kubernetes cluster provider is not initialized").
Proof.
  intros Hp. unfold asVerifier, http.validateTokenWithKubernetes,
    http.ValidateWithKubernetesApi, Server_KubernetesApiVerifyToken,
    Server_GetTargetParameterName.
  cbn. by rewrite Hp.
Qed.

Lemma review_without_provider_is_refused_witness :
  (http.validateTokenWithKubernetes Scenario.notJson
     {| http.Body := Some (inr "{}") |}
     (asVerifier (fun _ _ _ _ => inl "unused")
        (Scenario.fresh (Scenario.config false None [] [])))
     Scenario.bearer "mcp").2
  = Some ("kubernetes API token validation error: "
          +:+ "kubernetes cluster provider is not initialized").
Proof.
  apply (review_without_provider_is_refused (fun _ _ _ _ => inl "unused")
           (Scenario.fresh (Scenario.config false None [] []))
           Scenario.notJson {| http.Body := Some (inr "{}") |}
           Scenario.bearer "mcp").
  reflexivity.
Defined.

(** X10. Once a pass has constructed a provider, the server answers token
    reviews through that provider and with its target parameter name, also
    when the pass went on to fail at the targets query or at a conversion. *)
Theorem review_goes_to_the_new_provider VerifyToken env s np cluster token audience :
  NewProvider env (staticConfig (configuration s)) = inr np ->
  Server_GetTargetParameterName (reloadKubernetesClusterProvider env s).1.1
  = GetTargetParameterName np
  ∧ Server_KubernetesApiVerifyToken VerifyToken
      (reloadKubernetesClusterProvider env s).1.1 cluster token audience
    = VerifyToken np cluster token audience.
Proof.
  intros HP.
  assert (p (reloadKubernetesClusterProvider env s).1.1 = Some np) as Hp.
  { destruct (GetTargets np) as [e|targets] eqn:HT.
    - unfold reloadKubernetesClusterProvider. by rewrite HP, HT.
    - by rewrite (reload_resolved_state env s np targets HP HT). }
  unfold Server_GetTargetParameterName, Server_KubernetesApiVerifyToken.
  by rewrite Hp.
Qed.

Lemma review_goes_to_the_new_provider_witness :
  Server_GetTargetParameterName
    (reloadKubernetesClusterProvider
       (Scenario.collaborators Scenario.unreachable)
       (Scenario.fresh (Scenario.config false None [] []))).1.1
  = "context".
Proof.
  refine (proj1 (review_goes_to_the_new_provider (fun _ _ _ _ => inl "unused")
                   (Scenario.collaborators Scenario.unreachable)
                   (Scenario.fresh (Scenario.config false None [] []))
                   Scenario.unreachable "" "" "" _)).
  reflexivity.
Defined.

(** ** Resources and construction *)

Lemma registerAll_app regs1 regs2 (m : ResourceRegistry) :
  registerAll (regs1 ++ regs2) m = registerAll regs2 (registerAll regs1 m).
Proof. unfold registerAll. apply foldl_app. Qed.

Lemma registrationsOf_app asProvider tss1 tss2 :
  registrationsOf asProvider (tss1 ++ tss2)
  = registrationsOf asProvider tss1 ++ registrationsOf asProvider tss2.
Proof. unfold registrationsOf. by rewrite fmap_app, concat_app. Qed.

Lemma registrationsOf_cons asProvider ts tss :
  registrationsOf asProvider (ts :: tss)
  = match asProvider ts with
    | Some rp => (RegisterResources rp).1
    | None => []
    end ++ registrationsOf asProvider tss.
Proof. done. Qed.

Lemma RegisterToolsetResources_app asProvider m pre rest :
  Forall (registers asProvider) pre ->
  RegisterToolsetResources asProvider m (pre ++ rest)
  = RegisterToolsetResources asProvider
      (registerAll (registrationsOf asProvider pre) m) rest.
Proof.
  intros H. revert m. induction H as [|ts pre Hts _ IH]; intros m; [done|].
  rewrite registrationsOf_cons, registerAll_app.
  cbn [app RegisterToolsetResources]. unfold registers in Hts.
  destruct (asProvider ts) as [rp|]; [rewrite Hts|]; apply IH.
Qed.

Lemma RegisterToolsetResources_ok asProvider m tss :
  (RegisterToolsetResources asProvider m tss).2 = None
  ↔ Forall (registers asProvider) tss.
Proof.
  revert m. induction tss as [|ts rest IH]; intros m; cbn.
  - split; [constructor | done].
  - rewrite Forall_cons. unfold registers at 1.
    destruct (asProvider ts) as [rp|].
    + destruct (RegisterResources rp).2 as [e|] eqn:E; cbn.
      * split; [done | by intros [? _]].
      * rewrite IH. naive_solver.
    + rewrite IH. naive_solver.
Qed.

Lemma lookup_registerAll regs (m : ResourceRegistry) u :
  registerAll regs m !! u
  = match lastRegistered u regs with
    | Some reg => registerFunc reg ∅ !! u
    | None => m !! u
    end.
Proof.
  revert m. induction regs as [|reg rest IH]; intros m; [done|].
  cbn [registerAll foldl]. fold (registerAll rest (registerFunc reg m)).
  rewrite IH. unfold lastRegistered. rewrite filter_cons.
  case_decide as Hu.
  - destruct (filter _ rest) as [|reg' l] eqn:E.
    + cbn. unfold registerFunc. rewrite Hu. by rewrite !lookup_insert_eq.
    + rewrite last_cons_cons.
      destruct (last (reg' :: l)) eqn:EL; [done|]. by apply last_None in EL.
  - destruct (last _); [done|]. unfold registerFunc.
    by rewrite lookup_insert_ne.
Qed.

(** X11. After a resource registration that returned no error, a URI is
    bound to the last registration made under it by the toolsets, in catalog
    order, or else to what the protocol server held before.  The resource
    installed carries the URI, the name and the MIME type of the
    registration; reading it passes on the error of the toolset's handler,
    or wraps its text in one content entry of that URI and MIME type. *)
Theorem registered_resource_is_the_last_of_its_uri asProvider m tss u :
  (RegisterToolsetResources asProvider m tss).2 = None ->
  match lastRegistered u (registrationsOf asProvider tss) with
  | Some reg =>
      exists ir,
        (RegisterToolsetResources asProvider m tss).1 !! u = Some ir
        ∧ resource ir
          = {| URI := u; ResourceName := reg_name reg;
               MIMEType := reg_mimeType reg |}
        ∧ forall ctx,
            resourceHandler ir ctx
            = match reg_handler reg ctx with
              | inl e => inl e
              | inr content =>
                  inr {| Contents :=
                           [ {| ContentsURI := u;
                                ContentsMIMEType := reg_mimeType reg;
                                Text := content |} ] |}
              end
  | None => (RegisterToolsetResources asProvider m tss).1 !! u = m !! u
  end.
Proof.
  intros Hok%RegisterToolsetResources_ok.
  pose proof (RegisterToolsetResources_app asProvider m tss [] Hok) as Happ.
  rewrite app_nil_r in Happ. rewrite Happ. cbn [RegisterToolsetResources fst].
  rewrite lookup_registerAll.
  destruct (lastRegistered u (registrationsOf asProvider tss)) as [reg|] eqn:E;
    [|done].
  unfold lastRegistered in E. apply last_Some_elem_of in E.
  apply list_elem_of_filter in E as [<- _].
  unfold registerFunc. rewrite lookup_insert_eq. eexists. split; [done|].
  split; [done|]. intros ctx. cbn. by destruct (reg_handler reg ctx).
Qed.

Lemma registered_resource_is_the_last_of_its_uri_witness :
  exists ir,
    (RegisterToolsetResources (ResourceScenario.capability false) ∅
       [ResourceScenario.core; ResourceScenario.functions;
        ResourceScenario.extra]).1 !! "k8s://crd/functions" = Some ir
    ∧ ResourceName (resource ir) = "functions-crd-v2".
Proof.
  pose proof (registered_resource_is_the_last_of_its_uri
                (ResourceScenario.capability false) ∅
                [ResourceScenario.core; ResourceScenario.functions;
                 ResourceScenario.extra] "k8s://crd/functions") as H.
  assert (lastRegistered "k8s://crd/functions"
            (registrationsOf (ResourceScenario.capability false)
               [ResourceScenario.core; ResourceScenario.functions;
                ResourceScenario.extra])
          = Some ResourceScenario.crd_v2) as E by reflexivity.
  rewrite E in H. destruct H as (ir & H1 & H2 & _); [reflexivity|].
  exists ir. split; [exact H1 | by rewrite H2].
Defined.

(** X12. Resource registration stops at the first toolset whose registration
    fails: it returns that error, the registrations made up to and by that
    toolset stay in the protocol server, and the toolsets after it are not
    asked. *)
Theorem resource_registration_stops_at_first_failure
  asProvider m pre ts post rp e :
  Forall (registers asProvider) pre ->
  asProvider ts = Some rp ->
  (RegisterResources rp).2 = Some e ->
  RegisterToolsetResources asProvider m (pre ++ ts :: post)
  = (registerAll (registrationsOf asProvider (pre ++ [ts])) m, Some e).
Proof.
  intros Hpre Hts He.
  rewrite (RegisterToolsetResources_app asProvider m pre _ Hpre).
  cbn [RegisterToolsetResources]. rewrite Hts, He.
  rewrite registrationsOf_app, registerAll_app, registrationsOf_cons, Hts.
  by rewrite app_nil_r.
Qed.

Lemma resource_registration_stops_at_first_failure_witness :
  (RegisterToolsetResources (ResourceScenario.capability true) ∅
     [ResourceScenario.core; ResourceScenario.functions;
      ResourceScenario.extra]).2 = Some "registry closed"
  ∧ (RegisterToolsetResources (ResourceScenario.capability true) ∅
       [ResourceScenario.core; ResourceScenario.functions;
        ResourceScenario.extra]).1 !! "k8s://docs" = None.
Proof.
  rewrite (resource_registration_stops_at_first_failure
             (ResourceScenario.capability true) ∅ [ResourceScenario.core]
             ResourceScenario.functions [ResourceScenario.extra]
             {| RegisterResources :=
                  ([ResourceScenario.crd], Some "registry closed") |}
             "registry closed").
  - split; reflexivity.
  - repeat constructor.
  - reflexivity.
  - reflexivity.
Defined.

Lemma reload_ok_resolved env s :
  (reloadKubernetesClusterProvider env s).2 = None ->
  exists np targets,
    NewProvider env (staticConfig (configuration s)) = inr np
    ∧ GetTargets np = inr targets.
Proof.
  destruct (NewProvider env (staticConfig (configuration s))) as [e|np] eqn:HP.
  { unfold reloadKubernetesClusterProvider. by rewrite HP. }
  destruct (GetTargets np) as [e|targets] eqn:HT.
  { unfold reloadKubernetesClusterProvider. by rewrite HP, HT. }
  intros _. by exists np, targets.
Qed.

(** X13. [NewExtendableServer] returns a server exactly when it returns no
    error.  The server it returns has the configuration it was given, the
    resources of a registration without error, and stored names that are the
    names of the applicable tools; when the conversion keeps the names of the
    tools, it advertises exactly those names. *)
Theorem constructed_server_is_reconciled env asProvider requireOAuth cfg :
  ((NewExtendableServer env asProvider requireOAuth cfg).1.1 = None
   ↔ (NewExtendableServer env asProvider requireOAuth cfg).2 ≠ None)
  ∧ forall b,
      (NewExtendableServer env asProvider requireOAuth cfg).1.1 = Some b ->
      configuration (built b) = cfg
      ∧ registerResources asProvider cfg ∅ = (resources b, None)
      ∧ (exists np targets,
           NewProvider env (staticConfig cfg) = inr np
           ∧ GetTargets np = inr targets
           ∧ enabledTools (built b)
             = Some ((fun t => Name (tool t))
                     <$> (computeApplicable env cfg np targets).1))
      ∧ ((forall t g, ServerToolToGoSdkTool env t = inr g ->
                      SdkName g = Name (tool t)) ->
         advertised (server (built b)) = storedNames (built b)).
Proof.
  unfold NewExtendableServer.
  set (s := {| configuration := cfg; server := ∅; enabledTools := None;
               p := None |}).
  destruct (registerResources asProvider cfg ∅) as [res [e|]] eqn:Hres.
  { cbn. split; [split; done | done]. }
  destruct (reloadKubernetesClusterProvider env s).2 as [e|] eqn:Hret.
  { cbn. split; [split; done | done]. }
  cbn [fst snd]. split; [split; [done | by intros []]|].
  intros b [= <-]. cbn [built resources].
  destruct (reload_ok_resolved env s Hret) as (np & targets & HP & HT).
  rewrite (reload_resolved_ret env s np targets HP HT) in Hret.
  apply addTools_ok in Hret.
  split; [by rewrite (reload_resolved_state env s np targets HP HT)|].
  split; [done|]. split.
  - exists np, targets. split; [done|]. split; [done|].
    rewrite (reload_resolved_state env s np targets HP HT). cbn [enabledTools].
    change (configuration s) with cfg. by rewrite computeApplicable_spec.
  - intros Hname. apply set_eq. intros n.
    rewrite (advertised_after_resolved env s np targets n HP HT).
    unfold storedNames. rewrite elem_of_list_to_set.
    rewrite (stored_after_resolved env s np targets HP HT). split.
    + intros [(g & Hg & <-)|[Hadv _]].
      * by apply (convertedPrefix_named env _ g Hname).
      * unfold advertised in Hadv. cbn in Hadv. by rewrite dom_empty_L in Hadv.
    + intros Hn. left. by apply (converted_all_named env _ _ n Hname Hret).
Qed.

Lemma constructed_server_is_reconciled_witness :
  exists b,
    (NewExtendableServer (Scenario.collaborators Scenario.oneCluster)
       (ResourceScenario.capability false) true ResourceScenario.config).1.1
    = Some b
    ∧ enabledTools (built b) = Some ["pods_list"].
Proof.
  destruct (constructed_server_is_reconciled
              (Scenario.collaborators Scenario.oneCluster)
              (ResourceScenario.capability false) true ResourceScenario.config)
    as [_ H].
  eexists. split; [reflexivity|].
  edestruct H as (_ & _ & (np & targets & HP & HT & He) & _); [reflexivity|].
  injection HP as <-. injection HT as <-. exact He.
Defined.

(** X14. A construction that succeeds arms the watch twice on the provider
    of the server: once at the end of the first pass and once more after
    it. *)
Theorem constructed_server_arms_the_watch_twice env asProvider requireOAuth cfg b :
  (NewExtendableServer env asProvider requireOAuth cfg).1.1 = Some b ->
  exists np,
    p (built b) = Some np
    ∧ watchCalls (NewExtendableServer env asProvider requireOAuth cfg).1.2
      = [np; np].
Proof.
  unfold NewExtendableServer.
  set (s := {| configuration := cfg; server := ∅; enabledTools := None;
               p := None |}).
  destruct (registerResources asProvider cfg ∅) as [res [e|]]; [done|].
  destruct (reloadKubernetesClusterProvider env s).2 as [e|] eqn:Hret; [done|].
  cbn [fst snd]. intros [= <-]. cbn [built].
  destruct (reload_ok_resolved env s Hret) as (np & targets & HP & HT).
  pose proof (reload_resolved_watchCalls env s np targets HP HT) as Hw.
  rewrite Hret in Hw.
  exists np. rewrite (reload_resolved_state env s np targets HP HT) at 1 2.
  cbn [p]. split; [done|].
  unfold watchCalls in *. rewrite omap_app, Hw. done.
Qed.

Lemma constructed_server_arms_the_watch_twice_witness :
  watchCalls
    (NewExtendableServer (Scenario.collaborators Scenario.oneCluster)
       (ResourceScenario.capability false) true ResourceScenario.config).1.2
  = [Scenario.oneCluster; Scenario.oneCluster].
Proof.
  edestruct (constructed_server_arms_the_watch_twice
               (Scenario.collaborators Scenario.oneCluster)
               (ResourceScenario.capability false) true ResourceScenario.config)
    as (np & Hp & Hw); [reflexivity|].
  injection Hp as <-. exact Hw.
Defined.

(** ** The authorization middleware *)

Section Authorization.

Import authorization.

Lemma substring_all (s : string) : String.substring 0 (String.length s) s = s.
Proof. induction s as [|c s IH]; [done|]. simpl. by rewrite IH. Qed.

Lemma HasPrefix_app (pre s : string) : strings_HasPrefix (pre +:+ s) pre = true.
Proof.
  unfold strings_HasPrefix. induction pre as [|c pre IH]; simpl.
  - by destruct s.
  - destruct (Ascii.ascii_dec c c); [apply IH | done].
Qed.

Lemma TrimPrefix_app (pre s : string) : strings_TrimPrefix (pre +:+ s) pre = s.
Proof.
  unfold strings_TrimPrefix. rewrite HasPrefix_app.
  induction pre as [|c pre IH]; simpl.
  - rewrite Nat.sub_0_r. apply substring_all.
  - apply IH.
Qed.

Lemma HasPrefix_split (s pre : string) :
  strings_HasPrefix s pre = true -> s = pre +:+ strings_TrimPrefix s pre.
Proof.
  intros H. unfold strings_TrimPrefix. rewrite H. unfold strings_HasPrefix in H.
  revert s H. induction pre as [|c pre IH]; intros s H; simpl.
  - by rewrite Nat.sub_0_r, substring_all.
  - destruct s as [|c' s]; [done|]. simpl in H.
    destruct (Ascii.ascii_dec c c') as [->|]; [|done].
    change (String c' pre +:+ ?x) with (String c' (pre +:+ x)).
    f_equal. by apply IH.
Qed.

Lemma ParseJWTClaims_cases lib token :
  (exists e, ParseJWTClaims lib token = (None, Some e))
  ∨ (exists scope e,
       ParseJWTClaims lib token
       = (Some {| http.Token := token; http.Scope := scope |}, e)).
Proof.
  unfold ParseJWTClaims. destruct (jwt_ParseSigned lib token) as [e|tkn].
  - left. by eexists.
  - right. by do 2 eexists.
Qed.

End Authorization.

Section AuthorizationProperties.

Import authorization.

(** X15. [ParseJWTClaims] returns nil claims only together with an error,
    and the claims it returns carry the token it was given.  A validation
    that returns no error returns claims, which carry the token that was
    presented or, after a token exchange, the exchanged one. *)
Theorem validated_claims_carry_the_token
  lib token cfg provider verifier r httpClient :
  ((ParseJWTClaims lib token).1 = None -> is_Some (ParseJWTClaims lib token).2)
  ∧ (forall c, (ParseJWTClaims lib token).1 = Some c -> http.Token c = token)
  ∧ (err (validateToken lib token cfg provider verifier r httpClient) = None ->
     exists c,
       claims (validateToken lib token cfg provider verifier r httpClient)
       = Some c
       ∧ (http.Token c = token
          ∨ exists c0,
              http.Token c0 = token
              ∧ http.Token c
                = (exchangeTokenIfNeeded lib c0 cfg provider httpClient r).1.2)).
Proof.
  split; [|split].
  - destruct (ParseJWTClaims_cases lib token) as [[e ->]|(sc & e & ->)]; done.
  - intros c. destruct (ParseJWTClaims_cases lib token)
      as [[e ->]|(sc & e & ->)]; [done|]. by intros [= <-].
  - unfold validateToken.
    destruct (ParseJWTClaims_cases lib token) as [[e ->]|(sc & e & ->)];
      cbn [fst snd]; [done|].
    destruct e as [e|]; [done|].
    set (c := {| http.Token := token; http.Scope := sc |}).
    destruct (ValidateOffline lib c (OAuthAudience cfg)); [done|].
    destruct (ValidateWithProvider lib c (OAuthAudience cfg) provider); [done|].
    cbn zeta.
    destruct (exchangeTokenIfNeeded lib c cfg provider httpClient r)
      as [[r' x] [e|]] eqn:Hex; cbn [fst snd]; [done|].
    case_bool_decide as Hx; cbn [fst snd].
    + destruct (ValidateToken cfg); cbn; intros _; exists c; by split; [|left].
    + destruct (ParseJWTClaims_cases lib x) as [[e ->]|(sc' & e & ->)];
        cbn [fst snd]; [done|].
      destruct e as [e|]; [done|].
      destruct (ValidateToken cfg); cbn; intros _; eexists; (split; [done|]);
        right; exists c; by rewrite Hex.
Qed.

Lemma validated_claims_carry_the_token_witness :
  exists c,
    claims
      (validateToken (AuthScenario.libs true) "t0" (AuthScenario.protected false)
         None Scenario.reviewer (AuthScenario.call "/mcp" "Bearer t0") None)
    = Some c
    ∧ http.Token c = "x-t0".
Proof.
  destruct (validated_claims_carry_the_token (AuthScenario.libs true) "t0"
              (AuthScenario.protected false) None Scenario.reviewer
              (AuthScenario.call "/mcp" "Bearer t0") None) as (_ & _ & H).
  destruct H as (c & Hc & _); [reflexivity|].
  exists c. split; [exact Hc|].
  vm_compute in Hc. injection Hc as <-. reflexivity.
Defined.



(** X17. When the token is exchanged, the review is made with the exchanged
    token and not with the presented one, for the target extracted from the
    request; the validation returns the claims of the exchanged token, and
    its caller's request bears the exchanged token as its bearer token. *)
Theorem exchanged_token_is_the_one_reviewed
  lib token cfg provider verifier r httpClient c x c' :
  ParseJWTClaims lib token = (Some c, None) ->
  ValidateOffline lib c (OAuthAudience cfg) = None ->
  ValidateWithProvider lib c (OAuthAudience cfg) provider = None ->
  sts_IsEnabled lib cfg provider = true ->
  sts_ExternalAccountTokenExchange lib cfg provider httpClient token = inr x ->
  x ≠ "" ->
  ParseJWTClaims lib x = (Some c', None) ->
  ValidateToken cfg = true ->
  reviewCalls
    (effects (validateToken lib token cfg provider verifier r httpClient))
  = [((http.extractTargetFromRequest (json_Unmarshal lib) (inner r)
         (http.GetTargetParameterName verifier)).1.2, x, OAuthAudience cfg)]
  ∧ claims (validateToken lib token cfg provider verifier r httpClient)
    = Some c'
  ∧ Authorization
      (request (validateToken lib token cfg provider verifier r httpClient))
    = "Bearer " +:+ x.
Proof.
  intros Hparse Hoff Hprov Hsts Hex Hx Hparse' Hreview.
  assert (http.Token c = token) as Htok.
  { destruct (ParseJWTClaims_cases lib token) as [[e He]|(sc & e & He)];
      rewrite He in Hparse; [done|]. injection Hparse as Hc _.
    by rewrite <- Hc. }
  assert (http.Token c' = x) as Htok'.
  { destruct (ParseJWTClaims_cases lib x) as [[e He]|(sc & e & He)];
      rewrite He in Hparse'; [done|]. injection Hparse' as Hc _.
    by rewrite <- Hc. }
  unfold validateToken. rewrite Hparse. cbn [fst snd]. rewrite Hoff, Hprov.
  cbn zeta. unfold exchangeTokenIfNeeded. rewrite Hsts, Htok, Hex.
  cbn [negb fst snd]. rewrite bool_decide_eq_false_2 by done.
  rewrite Hparse'. cbn [fst snd]. rewrite Hreview. cbn [effects claims request].
  split; [|done].
  unfold http.validateTokenWithKubernetes, http.ValidateWithKubernetesApi.
  cbn zeta. cbn [inner setAuthorization]. rewrite Htok'.
  destruct (http.extractTargetFromRequest _ _ _).2;
    by destruct (http.KubernetesApiVerifyToken verifier _ x (OAuthAudience cfg)).
Qed.

Lemma exchanged_token_is_the_one_reviewed_witness :
  reviewCalls
    (effects
       (validateToken (AuthScenario.libs true) "t0"
          (AuthScenario.protected true) None Scenario.reviewer
          (AuthScenario.call "/mcp" "Bearer t0") None))
  = [("", "x-t0", "mcp")].
Proof.
  refine (proj1 (exchanged_token_is_the_one_reviewed (AuthScenario.libs true)
                   "t0" (AuthScenario.protected true) None Scenario.reviewer
                   (AuthScenario.call "/mcp" "Bearer t0") None
                   {| http.Token := "t0"; http.Scope := "read write" |} "x-t0"
                   {| http.Token := "x-t0"; http.Scope := "read write" |}
                   _ _ _ _ _ _ _ _)); try reflexivity.
  discriminate.
Defined.

(** X18. A validation changes nothing of its caller's request but the
    bearer token and the state of the body: the bearer token only to the
    token of an exchange, and the body only by reading it, which it does not
    do when the token review is switched off. *)
Theorem validation_touches_header_and_body_only
  lib token cfg provider verifier r httpClient :
  Method (request (validateToken lib token cfg provider verifier r httpClient))
  = Method r
  ∧ Path (request (validateToken lib token cfg provider verifier r httpClient))
    = Path r
  ∧ EscapedPath
      (request (validateToken lib token cfg provider verifier r httpClient))
    = EscapedPath r
  ∧ RemoteAddr
      (request (validateToken lib token cfg provider verifier r httpClient))
    = RemoteAddr r
  ∧ (Authorization
       (request (validateToken lib token cfg provider verifier r httpClient))
     = Authorization r
     ∨ exists x,
         sts_ExternalAccountTokenExchange lib cfg provider httpClient token
         = inr x
         ∧ Authorization
             (request
                (validateToken lib token cfg provider verifier r httpClient))
           = "Bearer " +:+ x)
  ∧ (inner (request (validateToken lib token cfg provider verifier r httpClient))
     = inner r
     ∨ ValidateToken cfg = true
       ∧ inner
           (request (validateToken lib token cfg provider verifier r httpClient))
         = consumed (inner r)).
Proof.
  unfold validateToken.
  destruct (ParseJWTClaims_cases lib token) as [[e ->]|(sc & e & ->)];
    cbn [fst snd]; [by repeat split; left|].
  destruct e as [e|]; [by repeat split; left|].
  set (c := {| http.Token := token; http.Scope := sc |}).
  destruct (ValidateOffline lib c (OAuthAudience cfg));
    [by repeat split; left|].
  destruct (ValidateWithProvider lib c (OAuthAudience cfg) provider);
    [by repeat split; left|].
  cbn zeta.
  assert (Method (exchangeTokenIfNeeded lib c cfg provider httpClient r).1.1
          = Method r
          ∧ Path (exchangeTokenIfNeeded lib c cfg provider httpClient r).1.1
            = Path r
          ∧ EscapedPath
              (exchangeTokenIfNeeded lib c cfg provider httpClient r).1.1
            = EscapedPath r
          ∧ RemoteAddr
              (exchangeTokenIfNeeded lib c cfg provider httpClient r).1.1
            = RemoteAddr r
          ∧ (Authorization
               (exchangeTokenIfNeeded lib c cfg provider httpClient r).1.1
             = Authorization r
             ∨ exists x,
                 sts_ExternalAccountTokenExchange lib cfg provider httpClient
                   token = inr x
                 ∧ Authorization
                     (exchangeTokenIfNeeded lib c cfg provider httpClient r).1.1
                   = "Bearer " +:+ x)
          ∧ inner (exchangeTokenIfNeeded lib c cfg provider httpClient r).1.1
            = inner r) as Hex.
  { unfold exchangeTokenIfNeeded.
    destruct (sts_IsEnabled lib cfg provider); cbn [negb];
      [|by repeat split; left].
    change (http.Token c) with token.
    destruct (sts_ExternalAccountTokenExchange lib cfg provider httpClient token)
      as [e|x] eqn:E; cbn; [by repeat split; left|].
    repeat split. right. by exists x. }
  destruct (exchangeTokenIfNeeded lib c cfg provider httpClient r)
    as [[r' x] [e|]]; cbn [fst snd] in *.
  { destruct Hex as (? & ? & ? & ? & ? & ?). repeat split; try done. by left. }
  destruct (if bool_decide (x = "") then _ else ParseJWTClaims lib x)
    as [[c'|] [e'|]];
    cbn [fst snd request];
    destruct Hex as (? & ? & ? & ? & ? & Hin);
    try (repeat split; try done; by left).
  destruct (ValidateToken cfg) eqn:Hv; cbn [request].
  - repeat split; try done. right. split; [done|]. cbn. by rewrite Hin.
  - repeat split; try done. by left.
Qed.
End AuthorizationProperties.

Section MiddlewareProperties.

Import authorization.

Lemma bearer_header (h : string) :
  (bool_decide (h = "") || negb (strings_HasPrefix h "Bearer ")) = false
  ↔ exists token, h = "Bearer " +:+ token.
Proof.
  split.
  - intros [_ H]%orb_false_iff. apply negb_false_iff in H.
    eexists. by apply HasPrefix_split.
  - intros [token ->]. rewrite HasPrefix_app.
    by rewrite bool_decide_eq_false_2.
Qed.

Lemma reviewed_body_is_consumed lib token cfg provider verifier r httpClient :
  err (validateToken lib token cfg provider verifier r httpClient) = None ->
  ValidateToken cfg = true ->
  inner (request (validateToken lib token cfg provider verifier r httpClient))
  = consumed (inner r).
Proof.
  intros Herr Hv. revert Herr. unfold validateToken.
  destruct (ParseJWTClaims_cases lib token) as [[e ->]|(sc & e & ->)];
    cbn [fst snd]; [done|].
  destruct e as [e|]; [done|].
  set (c := {| http.Token := token; http.Scope := sc |}).
  destruct (ValidateOffline lib c (OAuthAudience cfg)); [done|].
  destruct (ValidateWithProvider lib c (OAuthAudience cfg) provider); [done|].
  cbn zeta.
  assert (inner (exchangeTokenIfNeeded lib c cfg provider httpClient r).1.1
          = inner r) as Hin.
  { unfold exchangeTokenIfNeeded.
    destruct (sts_IsEnabled lib cfg provider); cbn [negb]; [|done].
    by destruct (sts_ExternalAccountTokenExchange _ _ _ _ _). }
  destruct (exchangeTokenIfNeeded lib c cfg provider httpClient r)
    as [[r' x] [e|]]; cbn [fst snd] in *; [done|].
  case_bool_decide; cbn [fst snd].
  - rewrite Hv. cbn. by rewrite Hin.
  - destruct (ParseJWTClaims_cases lib x) as [[e ->]|(sc' & e & ->)];
      cbn [fst snd]; [done|].
    destruct e as [e|]; [done|]. rewrite Hv. cbn. by rewrite Hin.
Qed.

(** X19. A request reaches the next handler exactly when its path is the
    health endpoint or a well-known endpoint, or OAuth is not required, or
    its [Authorization] header is [Bearer] followed by a token whose
    validation returns no error. *)
Theorem request_reaches_next_only_when_authorized
  lib cfg provider verifier httpClient r :
  (exists r',
     (AuthorizationMiddleware lib cfg provider verifier httpClient r).1 = Next r')
  ↔ Path r = healthEndpoint lib
    ∨ EscapedPath r ∈ WellKnownEndpoints lib
    ∨ RequireOAuth cfg = false
    ∨ exists token,
        Authorization r = "Bearer " +:+ token
        ∧ err (validateToken lib token cfg provider verifier r httpClient)
          = None.
Proof.
  unfold AuthorizationMiddleware.
  destruct (decide (Path r = healthEndpoint lib)) as [Hh|Hh].
  { rewrite bool_decide_eq_true_2 by done. cbn. split; [by left | by eexists]. }
  rewrite (bool_decide_eq_false_2 _ Hh). cbn [orb].
  destruct (decide (EscapedPath r ∈ WellKnownEndpoints lib)) as [Hw|Hw].
  { rewrite bool_decide_eq_true_2 by done. cbn.
    split; [by right; left | by eexists]. }
  rewrite (bool_decide_eq_false_2 _ Hw).
  destruct (RequireOAuth cfg); cbn [negb];
    [|split; [by right; right; left | by eexists]].
  destruct (bool_decide (Authorization r = "") || _) eqn:Hb.
  - cbn. split; [by intros [? ?]|].
    intros [?|[?|[?|(token & Hauth & _)]]]; try done.
    assert (exists token, Authorization r = "Bearer " +:+ token) as H
      by by exists token.
    apply bearer_header in H. congruence.
  - apply bearer_header in Hb as [token Hauth]. rewrite Hauth, TrimPrefix_app.
    destruct (err (validateToken lib token cfg provider verifier r httpClient))
      as [e|] eqn:He; cbn.
    + split; [by intros [? ?]|].
      intros [?|[?|[?|(token' & Hauth' & He')]]]; try done.
      assert (token' = token) as ->.
      { rewrite <- (TrimPrefix_app "Bearer " token'), <- Hauth'.
        apply TrimPrefix_app. }
      congruence.
    + split; [|by eexists]. intros _. right; right; right. by exists token.
Qed.

(** X20. What the middleware answers itself is a 401 with the challenge of
    the configuration and an error type: [missing_token], after no call on
    any collaborator but the logger, when the [Authorization] header is not
    [Bearer] followed by a token, and [invalid_token] when it is and the
    validation of the token returned an error.  It answers itself only on a
    protected path with OAuth required. *)
Theorem rejection_is_a_401_challenge
  lib cfg provider verifier httpClient r resp :
  (AuthorizationMiddleware lib cfg provider verifier httpClient r).1
  = Answered resp ->
  Status resp = 401
  ∧ RequireOAuth cfg = true
  ∧ Path r ≠ healthEndpoint lib
  ∧ (EscapedPath r ∉ WellKnownEndpoints lib)
  ∧ ((resp
      = write401 lib (wwwAuthenticateHeader lib cfg) "missing_token"
          "Unauthorized: Bearer token required"
      ∧ (forall token, Authorization r ≠ "Bearer " +:+ token)
      ∧ reviewCalls
          (AuthorizationMiddleware lib cfg provider verifier httpClient r).2
        = [])
     ∨ (resp
        = write401 lib (wwwAuthenticateHeader lib cfg) "invalid_token"
            "Unauthorized: Invalid token"
        ∧ exists token,
            Authorization r = "Bearer " +:+ token
            ∧ is_Some
                (err (validateToken lib token cfg provider verifier r
                        httpClient)))).
Proof.
  unfold AuthorizationMiddleware.
  destruct (decide (Path r = healthEndpoint lib)) as [Hh|Hh].
  { by rewrite bool_decide_eq_true_2 by done. }
  rewrite (bool_decide_eq_false_2 _ Hh). cbn [orb].
  destruct (decide (EscapedPath r ∈ WellKnownEndpoints lib)) as [Hw|Hw].
  { by rewrite bool_decide_eq_true_2 by done. }
  rewrite (bool_decide_eq_false_2 _ Hw).
  destruct (RequireOAuth cfg); cbn [negb]; [|done].
  destruct (bool_decide (Authorization r = "") || _) eqn:Hb.
  - cbn. intros [= <-]. repeat split; try done. left. repeat split.
    intros token Hauth.
    assert (exists token, Authorization r = "Bearer " +:+ token) as H
      by by exists token.
    apply bearer_header in H. congruence.
  - apply bearer_header in Hb as [token Hauth]. rewrite Hauth, TrimPrefix_app.
    destruct (err (validateToken lib token cfg provider verifier r httpClient))
      as [e|] eqn:He; cbn; [|done].
    intros [= <-]. repeat split; try done. right. split; [done|].
    exists token. by rewrite He.
Qed.

Lemma rejection_is_a_401_challenge_witness :
  Status
    (write401 (AuthScenario.libs false)
       (wwwAuthenticateHeader (AuthScenario.libs false)
          (AuthScenario.protected true))
       "missing_token" "Unauthorized: Bearer token required")
  = 401.
Proof.
  refine (proj1 (rejection_is_a_401_challenge (AuthScenario.libs false)
                   (AuthScenario.protected true) None Scenario.reviewer None
                   (AuthScenario.call "/mcp" "bearer t0") _ _)).
  reflexivity.
Defined.

(** X21. The body that target extraction puts back does not reach the next
    handler: when the token review is switched on, a request with a readable
    body that the middleware hands on after validating its token has a body
    that was read to its end. *)
Theorem next_handler_receives_a_consumed_body
  lib cfg provider verifier httpClient r r' body :
  (AuthorizationMiddleware lib cfg provider verifier httpClient r).1 = Next r' ->
  Path r ≠ healthEndpoint lib ->
  EscapedPath r ∉ WellKnownEndpoints lib ->
  RequireOAuth cfg = true ->
  ValidateToken cfg = true ->
  http.Body (inner r) = Some (inr body) ->
  http.Body (inner r') = Some (inr "").
Proof.
  unfold AuthorizationMiddleware. intros Hnext Hh Hw Ho Hv Hbody. revert Hnext.
  rewrite (bool_decide_eq_false_2 _ Hh), (bool_decide_eq_false_2 _ Hw), Ho.
  cbn [orb negb].
  destruct (bool_decide (Authorization r = "") || _); [done|].
  destruct (err (validateToken lib _ cfg provider verifier r httpClient))
    as [e|] eqn:He; [done|].
  intros [= <-]. rewrite (reviewed_body_is_consumed _ _ _ _ _ _ _ He Hv).
  unfold consumed. by rewrite Hbody.
Qed.

Lemma next_handler_receives_a_consumed_body_witness :
  exists r',
    (AuthorizationMiddleware (AuthScenario.libs false)
       (AuthScenario.protected true) None Scenario.reviewer None
       (AuthScenario.call "/mcp" "Bearer t0")).1 = Next r'
    ∧ http.Body (inner r') = Some (inr "").
Proof.
  eexists. split; [reflexivity|].
  apply (next_handler_receives_a_consumed_body (AuthScenario.libs false)
           (AuthScenario.protected true) None Scenario.reviewer None
           (AuthScenario.call "/mcp" "Bearer t0") _ "{}").
  - reflexivity.
  - discriminate.
  - vm_compute. intros H. apply list_elem_of_singleton in H. discriminate.
  - reflexivity.
  - reflexivity.
  - reflexivity.
Defined.

(** X22. Target extraction leaves its request as it found it: a body that
    was read is put back, so that a second extraction returns what the first
    one did. *)
Theorem extraction_puts_the_body_back json r targetName :
  (forall body,
     http.Body r = Some (inr body) ->
     http.Body (http.extractTargetFromRequest json r targetName).1.1
     = Some (inr body))
  ∧ http.extractTargetFromRequest json
      (http.extractTargetFromRequest json r targetName).1.1 targetName
    = http.extractTargetFromRequest json r targetName.
Proof.
  unfold http.extractTargetFromRequest. destruct r as [[[e|body]|]]; cbn.
  - done.
  - split.
    + intros b [= <-]. destruct (json body) as [?|req]; [done|].
      by destruct (http.Arguments (http.Params req) !! targetName) as [[]|].
    + destruct (json body) as [?|req] eqn:E; cbn; [by rewrite E|].
      destruct (http.Arguments (http.Params req) !! targetName) as [[]|] eqn:E';
        cbn; by rewrite E, E'.
  - done.
Qed.

(** X23. Target extraction returns a target that is not empty exactly when
    the body was read, decodes, and holds that string under the target
    parameter. *)
Theorem extraction_returns_the_string_argument json r targetName cluster :
  cluster ≠ "" ->
  (http.extractTargetFromRequest json r targetName).1.2 = cluster
  ↔ exists body req,
      http.Body r = Some (inr body)
      ∧ json body = inr req
      ∧ http.Arguments (http.Params req) !! targetName
        = Some (http.AnyString cluster).
Proof.
  intros Hne. unfold http.extractTargetFromRequest.
  destruct (http.Body r) as [[e|body]|]; cbn.
  - split; [congruence | by intros (? & ? & ? & _)].
  - destruct (json body) as [e|req] eqn:E; cbn.
    + split; [congruence|]. intros (b & q & [= <-] & Hq & _). congruence.
    + destruct (http.Arguments (http.Params req) !! targetName) as [v|] eqn:E'.
      * destruct v as [|?|?|target|?|?]; cbn;
          try (split; [congruence|];
               intros (b' & q & [= <-] & Hq & Hv); congruence).
        split.
        -- intros <-. by exists body, req.
        -- intros (b' & q & [= <-] & Hq & Hv). congruence.
      * cbn. split; [congruence|].
        intros (b & q & [= <-] & Hq & Hv). congruence.
  - split; [congruence | by intros (? & ? & ? & _)].
Qed.

Lemma extraction_returns_the_string_argument_witness :
  (http.extractTargetFromRequest
     (fun _ =>
        inr {| http.Params :=
                 {| http.Arguments :=
                      {[ "context" := http.AnyString "staging" ]} |} |})
     {| http.Body := Some (inr "{...}") |} "context").1.2
  = "staging".
Proof.
  apply (extraction_returns_the_string_argument _ _ "context" "staging").
  - discriminate.
  - eexists _, _. split; [reflexivity|]. split; [reflexivity|]. reflexivity.
Defined.

(** X24. The header that a token exchange writes is one the middleware
    accepts: it starts with [Bearer] and a space, and what follows is the
    exchanged token the function returns. *)
Theorem exchange_writes_a_bearer_header
  lib c cfg provider httpClient r x :
  sts_IsEnabled lib cfg provider = true ->
  sts_ExternalAccountTokenExchange lib cfg provider httpClient (http.Token c)
  = inr x ->
  (exchangeTokenIfNeeded lib c cfg provider httpClient r).1.2 = x
  ∧ (exchangeTokenIfNeeded lib c cfg provider httpClient r).2 = None
  ∧ strings_HasPrefix
      (Authorization (exchangeTokenIfNeeded lib c cfg provider httpClient r).1.1)
      "Bearer " = true
  ∧ strings_TrimPrefix
      (Authorization (exchangeTokenIfNeeded lib c cfg provider httpClient r).1.1)
      "Bearer " = x.
Proof.
  intros Hsts Hex. unfold exchangeTokenIfNeeded. rewrite Hsts, Hex.
  cbn [negb fst snd setAuthorization Authorization].
  split; [done|]. split; [done|].
  split; [apply HasPrefix_app | apply TrimPrefix_app].
Qed.

Lemma exchange_writes_a_bearer_header_witness :
  strings_TrimPrefix
    (Authorization
       (exchangeTokenIfNeeded (AuthScenario.libs true) Scenario.bearer
          (AuthScenario.protected true) None None
          (AuthScenario.call "/mcp" "Bearer t0")).1.1)
    "Bearer " = "x-t0".
Proof.
  destruct (exchange_writes_a_bearer_header (AuthScenario.libs true)
              Scenario.bearer (AuthScenario.protected true) None None
              (AuthScenario.call "/mcp" "Bearer t0") "x-t0")
    as (_ & _ & _ & H); [reflexivity | reflexivity | exact H].
Defined.

End MiddlewareProperties.
